(** * DigiVerify: the signature verification engine

    A shallow embedding of [src/utils/signatureVerifier.js] (the
    verification engine) and of the document-level status reduction of
    [src/App.jsx], followed by the properties proved about them.

    Conventions.
    - Bytes are [Byte.byte]; the text obtained from them with the
      single-byte decoder is a [list ascii], one character per byte, so
      that offsets in the text are offsets in the bytes.
    - Instants ([Date] objects) are [Z], the milliseconds that
      [Date.prototype.valueOf] returns: that is what [>] compares.
    - A call that may raise is modelled by a value of [Exc]: either the
      [message] of the raised error or the value returned. A promise is a
      value of [Promise]: what it is rejected with or what it resolves to.
    - The libraries the engine calls (node-forge, pdf.js) and the parts of
      the JavaScript engine that are not arithmetic (the clock, locale
      formatting, the text of a TypeError, the decoding of a file read as
      text) are fields of the records [Forge] and [Engine]: the engine is
      verified for every behaviour of those. What does not vary is fixed:
      the certificate objects of node-forge have no method [toAsn1], and
      pdf.js takes the buffer of the data it is given. *)

From Stdlib Require Import ZArith NArith.
From Stdlib.Strings Require Import String Ascii Byte.
From stdpp Require Import base tactics option list numbers strings gmap pretty sorting.

Local Open Scope string_scope.

(** ** Raised errors *)

Definition Exc (A : Type) : Type := string + A.

Definition raise {A} (msg : string) : Exc A := inl msg.
Definition returns {A} (a : A) : Exc A := inr a.

(** ** Promises *)

Module Rejection.

(** What a promise of the engine is rejected with: an [Error] object, or the
    [error] event of a [FileReader], passed as it is to [reject]. *)
Inductive t :=
| Error (message : string)
| Event.

(** [err.message], which the callers read: an event has none. *)
Definition message (err : t) : option string :=
  match err with
  | Error m => Some m
  | Event => None
  end.

End Rejection.

Definition Promise (A : Type) : Type := Rejection.t + A.

Definition reject {A} (err : Rejection.t) : Promise A := inl err.
Definition resolve {A} (a : A) : Promise A := inr a.

(** ** Files *)

Module File.

(** A [File]: its name, its size, the bytes it holds, and whether a
    [FileReader] can read it: the reader fires [load] with the content, or
    [error] when the read fails. *)
Record t := { name : string; size : N; bytes : list byte; readable : bool }.

End File.

(** ** The JavaScript values that reach [Uint8Array.prototype.slice] *)

Module Js.

(** What [parseInt] gives on a run of decimal digits: a non-negative
    integer that a double holds, or [Infinity]. *)
Inductive number :=
| Finite (n : N)
| Infinity.

(** The double nearest to the integer [n], the one with the even
    significand when two are as near; [Infinity] when that double would be
    [2^1024]. Below [2^53] every integer is a double. From there on [n] has
    [53 + e] bits: the [e] low ones are dropped and the significand is
    rounded on them. *)
Definition to_double (n : N) : number :=
  if (n <? 2 ^ 53)%N then Finite n
  else
    let e := (N.log2 n - 52)%N in
    let significand := N.shiftr n e in
    let dropped := N.land n (N.ones e) in
    let half := N.shiftl 1 (e - 1) in
    let rounded :=
      if (half <? dropped)%N || ((dropped =? half)%N && N.odd significand)
      then (significand + 1)%N
      else significand in
    if (2 ^ 1024 <=? N.shiftl rounded e)%N then Infinity
    else Finite (N.shiftl rounded e).

(** [extractByteRange] receives, as [start] and [length], elements of the
    [byteRange] array of a signature object: a number, a two-element array
    of numbers, or [undefined] past the end of the array. Adding two of
    them gives a number, [NaN], or (as soon as one operand is an array,
    which [+] turns into its comma-joined text) a string that contains a
    comma. *)
Inductive value :=
| Undefined
| NaN
| Num (n : N)
| Arr2 (a b : number)
| CommaStr.

(** [x + y]. *)
Definition add (x y : value) : value :=
  match x, y with
  | Num a, Num b => Num (a + b)
  | Arr2 _ _, _ | CommaStr, _ | _, Arr2 _ _ | _, CommaStr => CommaStr
  | _, _ => NaN
  end.

(** [ToIntegerOrInfinity]: [undefined] and every text that is not a
    numeric literal (one with a comma is not) convert to [NaN], and [NaN]
    to [0]. *)
Definition ToIntegerOrInfinity (v : value) : N :=
  match v with
  | Num n => n
  | _ => 0
  end.

End Js.

(** ** Typed arrays *)

(** [bytes.slice(start, end)] with [end] not [undefined]: both indices are
    clamped to the length, and an empty range is returned when they cross.
    (An index at or above the length counts as the length, so a number too
    large for a JavaScript number to hold exactly gives the same slice.) *)
Definition slice (bytes : list byte) (start end_ : Js.value) : list byte :=
  let len := N.of_nat (length bytes) in
  let from := N.min (Js.ToIntegerOrInfinity start) len in
  let final := N.min (Js.ToIntegerOrInfinity end_) len in
  let count := (final - from)%N in
  take (N.to_nat count) (drop (N.to_nat from) bytes).

(** [combined.set(part, offset)] for a part that fits, as the parts of
    [extractByteRange] do: [combined] has their total length. *)
Definition set_at (combined part : list byte) (offset : nat) : list byte :=
  take offset combined ++ part ++ drop (offset + length part) combined.

(** The copying loop of [extractByteRange]: the state is the array being
    filled and the running offset. *)
Definition copy_part (st : list byte * nat) (part : list byte) : list byte * nat :=
  (set_at st.1 part st.2, st.2 + length part).

(** [extractByteRange(pdfBytes, byteRanges)] *)
Definition extractByteRange (pdfBytes : list byte)
    (byteRanges : list (Js.value * Js.value)) : list byte :=
  let parts :=
    (λ r : Js.value * Js.value, slice pdfBytes r.1 (Js.add r.1 r.2)) <$> byteRanges in
  let totalLength := foldl (λ acc p, acc + length p) 0 parts in
  let combined := replicate totalLength Byte.x00 in
  (foldl copy_part (combined, 0) parts).1.

(** ** Status labels *)

Inductive OverallStatus :=
| valid | invalid | tampered | self_signed | expired | untrusted | none.

Global Instance OverallStatus_eq_dec : EqDecision OverallStatus.
Proof. solve_decision. Defined.


(** ** node-forge: certificates *)

Module X509.

Record Attribute := { shortName : string; value : string }.

(** A distinguished name ([cert.subject], [cert.issuer]): its attributes in
    encoding order and the hash forge computes over its encoding. *)
Record Name := { attributes : list Attribute; hash : string }.

(** [name.getField(sn)] with a short name: the first attribute that has it. *)
Definition getField (nm : Name) (sn : string) : option Attribute :=
  List.find (λ a, bool_decide (shortName a = sn)) (attributes nm).

Record Validity := { notBefore : Z; notAfter : Z }.

(** A public key: [n] is the modulus, which only an RSA key has. *)
Record PublicKey := { n : option N }.

(** [n.bitLength()] *)
Definition bitLength (m : N) : N := N.size m.

(** The value of an extension: a string, or a structured value, held as the
    text [JSON.stringify] gives for it. *)
Inductive ExtensionValue :=
| Text (s : string)
| Structured (json : string).

Record Extension := { name : string; ext_value : ExtensionValue }.

(** A certificate object, as [forge.pki.certificateFromAsn1] builds it. It
    has no method [toAsn1]: the ASN.1 object of a certificate is what
    [forge.pki.certificateToAsn1] returns. *)
Record Certificate := {
  subject : Name;
  issuer : Name;
  serialNumber : string;
  validity : Validity;
  publicKey : PublicKey;
  extensions : list Extension
}.

(** The ASN.1 object of a certificate. *)
Record Asn1 := { of_certificate : Certificate }.

End X509.

(** ** node-forge: signature envelopes *)

Module Pkcs7.

(** A signed attribute: its type (an object identifier) and the [value]
    fields of the elements of its [value] array. *)
Record Attribute := { type : string; value : list string }.

(** [md] tells whether the signer carries a digest object of its own. *)
Record SignerInfo := {
  md : bool;
  authenticatedAttributes : option (list Attribute)
}.

(** A decoded envelope. [verify fed] is what [p7.verify()] does: it raises or
    returns. [fed] is the data the engine pushed into the signer's own digest
    object before the call, when the signer has one ([None] otherwise: the
    engine then feeds a digest object of its own, which it discards). *)
Record Message := {
  signers : option (list SignerInfo);
  certificates : option (list X509.Certificate);
  verify : option (list byte) → Exc bool
}.

End Pkcs7.

(** ** The libraries and the engine, as the code sees them *)

Record Forge := {
  (** [forge.util.hexToBytes] *)
  hexToBytes : string → string;
  (** [forge.pkcs7.messageFromAsn1(forge.asn1.fromDer(der))] *)
  messageFromDer : string → Exc Pkcs7.Message;
  (** [forge.pki.certificateFromPem] *)
  certificateFromPem : string → Exc X509.Certificate;
  (** [forge.pki.certificateFromAsn1(forge.asn1.fromDer(der))] *)
  certificateFromDer : string → Exc X509.Certificate;
  (** [forge.asn1.toDer(asn1).getBytes()]: the encoded bytes *)
  toDer : X509.Asn1 → string;
  (** [forge.md.sha256.create().update(bytes).digest().toHex()] *)
  sha256Hex : string → string;
  (** [forge.asn1.utcTimeToDate] *)
  utcTimeToDate : string → Exc Z;
  (** [forge.pki.oids.signingTime] *)
  signingTimeOid : string
}.

Record Engine := {
  (** [date.toLocaleDateString()] *)
  toLocaleDateString : Z → string;
  (** the message of the TypeError raised on reading property [p] of
      [undefined] *)
  typeErrorMessage : string → string;
  (** the message of the TypeError raised on calling [callee], an expression
      whose value is [undefined] *)
  notAFunction : string → string;
  (** [new Uint8Array(text)] for a string [text]: the length [ToIndex(text)]
      of the zero-filled array created, or the RangeError raised *)
  toIndex : string → Exc N;
  (** the text [readAsText] gives for the bytes of a file *)
  utf8Decode : list byte → string
}.

(** ** Verification results *)

(** An entry of the certificate chain of a result. *)
Module Chain.
Record Entry := {
  subject : string;
  issuer : string;
  validFrom : Z;
  validTo : Z;
  serialNumber : string;
  isExpired : bool;
  fingerprint : string
}.
End Chain.

Record VerificationResult := {
  signerName : string;
  signerEmail : option string;
  signingTime : option Z;
  reason : option string;
  location : option string;
  certificates : list Chain.Entry;
  integrityValid : bool;
  certTrustValid : bool;
  isExpired : bool;
  isSelfSigned : bool;
  errors : list string;
  warnings : list string
}.

(** The object literal [verifyPDFSignature] starts from. *)
Definition initial_result : VerificationResult := {|
  signerName := "Unknown";
  signerEmail := None;
  signingTime := None;
  reason := None;
  location := None;
  certificates := [];
  integrityValid := false;
  certTrustValid := false;
  isExpired := false;
  isSelfSigned := false;
  errors := [];
  warnings := []
|}.

(** Assignments to the fields of [result]. *)
Definition set_signerName v r := let 'Build_VerificationResult _ b c d e f g h i j k l := r in
  Build_VerificationResult v b c d e f g h i j k l.
Definition set_signerEmail v r := let 'Build_VerificationResult a _ c d e f g h i j k l := r in
  Build_VerificationResult a v c d e f g h i j k l.
Definition set_signingTime v r := let 'Build_VerificationResult a b _ d e f g h i j k l := r in
  Build_VerificationResult a b v d e f g h i j k l.
Definition set_reason v r := let 'Build_VerificationResult a b c _ e f g h i j k l := r in
  Build_VerificationResult a b c v e f g h i j k l.
Definition set_location v r := let 'Build_VerificationResult a b c d _ f g h i j k l := r in
  Build_VerificationResult a b c d v f g h i j k l.
Definition set_certificates v r := let 'Build_VerificationResult a b c d e _ g h i j k l := r in
  Build_VerificationResult a b c d e v g h i j k l.
Definition set_integrityValid v r := let 'Build_VerificationResult a b c d e f _ h i j k l := r in
  Build_VerificationResult a b c d e f v h i j k l.
Definition set_certTrustValid v r := let 'Build_VerificationResult a b c d e f g _ i j k l := r in
  Build_VerificationResult a b c d e f g v i j k l.
Definition set_isExpired v r := let 'Build_VerificationResult a b c d e f g h _ j k l := r in
  Build_VerificationResult a b c d e f g h v j k l.
Definition set_isSelfSigned v r := let 'Build_VerificationResult a b c d e f g h i _ k l := r in
  Build_VerificationResult a b c d e f g h i v k l.
(** [result.errors.push(msg)] and [result.warnings.push(msg)] *)
Definition push_error msg r := let 'Build_VerificationResult a b c d e f g h i j k l := r in
  Build_VerificationResult a b c d e f g h i j (k ++ [msg]) l.
Definition push_warning msg r := let 'Build_VerificationResult a b c d e f g h i j k l := r in
  Build_VerificationResult a b c d e f g h i j k (l ++ [msg]).

(** ** Signature objects *)

(** What the locator hands to the verifier for one field: [byteRange] is the
    array of two two-element arrays the locator builds, [contents] the
    hexadecimal text of the envelope, or [null]. *)
Module Sig.

(** The array [[[a, b], [c, d]]]. *)
Definition ByteRange : Type := (Js.number * Js.number) * (Js.number * Js.number).

Definition range (a b c d : N) : ByteRange :=
  ((Js.Finite a, Js.Finite b), (Js.Finite c, Js.Finite d)).

Record Obj := {
  byteRange : ByteRange;
  contents : option string;
  reason : option string;
  location : option string
}.

(** [sigObj] with its byte range replaced. *)
Definition with_byteRange (byteRange : ByteRange) (sigObj : Obj) : Obj :=
  {| byteRange := byteRange;
     contents := contents sigObj;
     reason := reason sigObj;
     location := location sigObj |}.

End Sig.

(** [byteRange[i]] on the array of a signature object, which has two
    elements, each an array. *)
Definition byteRange_at (br : Sig.ByteRange) (i : nat) : Js.value :=
  match i with
  | 0 => Js.Arr2 br.1.1 br.1.2
  | 1 => Js.Arr2 br.2.1 br.2.2
  | _ => Js.Undefined
  end.

(** A string or [null] used as a condition: [null] and the empty string are
    falsy. [or_null v] is [v || null], and [!v] holds when it is [None]. *)
Definition or_null (v : option string) : option string :=
  match v with
  | Some EmptyString => None
  | _ => v
  end.

(** [list.join(sep)] *)
Fixpoint join (sep : string) (l : list string) : string :=
  match l with
  | [] => ""
  | [x] => x
  | x :: l' => x ++ sep ++ join sep l'
  end.

(** ** Control flow of [verifyPDFSignature]

    The function mutates one [result] object and can leave a block in three
    ways: by completing it, by [return result], or by raising. The state is
    kept in all three, since the assignments made before a [throw] stay. *)

Inductive outcome (A : Type) :=
| Normal (a : A)
| Return
| Throw (msg : string).
Arguments Normal {A} a.
Arguments Return {A}.
Arguments Throw {A} msg.

Definition M (A : Type) : Type := VerificationResult → outcome A * VerificationResult.

Definition ret {A} (a : A) : M A := λ r, (Normal a, r).

Definition bind {A B} (m : M A) (k : A → M B) : M B :=
  λ r, match m r with
       | (Normal a, r') => k a r'
       | (Return, r') => (Return, r')
       | (Throw msg, r') => (Throw msg, r')
       end.

Global Instance M_ret : MRet M := @ret.
Global Instance M_bind : MBind M := λ A B k m, bind m k.

(** An assignment to [result]. *)
Definition update (f : VerificationResult → VerificationResult) : M unit :=
  λ r, (Normal tt, f r).

(** [return result;] *)
Definition return_result {A} : M A := λ r, (Return, r).

Definition throw {A} (msg : string) : M A := λ r, (Throw msg, r).

(** A library call. *)
Definition call {A} (e : Exc A) : M A :=
  match e with
  | inl msg => throw msg
  | inr a => ret a
  end.

(** [try { body } catch (e) { handler(e.message) }] *)
Definition try_catch {A} (body : M A) (handler : string → M A) : M A :=
  λ r, match body r with
       | (Throw msg, r') => handler msg r'
       | o => o
       end.

(** ** The signature verifier *)

Section Verifier.

Context (forge : Forge) (engine : Engine).

(** [parseCMSSignature(hexContents)] *)
Definition parseCMSSignature (hexContents : string) : Exc Pkcs7.Message :=
  messageFromDer forge (hexToBytes forge hexContents).

(** The common name of [nm] when it has one, else all its attributes. *)
Definition display_name (nm : X509.Name) : string :=
  match X509.getField nm "CN" with
  | Some cn => X509.value cn
  | None =>
      join ", " ((λ a, X509.shortName a ++ "=" ++ X509.value a) <$> X509.attributes nm)
  end.

(** [c.toAsn1()], where [callee] is the text of [c.toAsn1]: the property
    [toAsn1] of a certificate object is [undefined], and the call raises. *)
Definition toAsn1 (callee : string) (c : X509.Certificate) : Exc X509.Asn1 :=
  raise (notAFunction engine callee).

(** [forge.md.sha256.create().update(forge.asn1.toDer(c.toAsn1()).getBytes())
    .digest().toHex()]: the digest, in hexadecimal, of the encoded bytes of
    [c], if [c.toAsn1()] returns. *)
Definition fingerprint (callee : string) (c : X509.Certificate) : Exc string :=
  match toAsn1 callee c with
  | inl err => raise err
  | inr asn1 => returns (sha256Hex forge (toDer forge asn1))
  end.

(** The entry of the chain listing for [c]: the properties of the object
    literal are evaluated in order, the fingerprint last. *)
Definition chain_entry (now : Z) (c : X509.Certificate) : Exc Chain.Entry :=
  let subject := display_name (X509.subject c) in
  let issuer := display_name (X509.issuer c) in
  match fingerprint "c.toAsn1" c with
  | inl err => raise err
  | inr fingerprint =>
      returns {|
        Chain.subject := subject;
        Chain.issuer := issuer;
        Chain.validFrom := X509.notBefore (X509.validity c);
        Chain.validTo := X509.notAfter (X509.validity c);
        Chain.serialNumber := X509.serialNumber c;
        Chain.isExpired := bool_decide (now > X509.notAfter (X509.validity c))%Z;
        Chain.fingerprint := fingerprint
      |}
  end.

(** [p7.certificates.map(c => ...)]: the entries in order, up to the first
    one whose construction raises. *)
Fixpoint chain_listing (now : Z) (certs : list X509.Certificate) : Exc (list Chain.Entry) :=
  match certs with
  | [] => returns []
  | c :: rest =>
      match chain_entry now c with
      | inl err => raise err
      | inr entry =>
          match chain_listing now rest with
          | inl err => raise err
          | inr entries => returns (entry :: entries)
          end
      end
  end.

(** The inner [try] block up to its call of [p7.verify()]: [signerInfo.md]
    is read, which raises when there is no signer, the signed bytes are
    pushed into the signer's digest object, or into a fresh one when the
    signer has none, and the envelope is asked to verify itself. *)
Definition digestVerified (p7 : Pkcs7.Message) (signerInfo : option Pkcs7.SignerInfo)
    (signedBytes : list byte) : Exc bool :=
  match signerInfo with
  | None => raise (typeErrorMessage engine "md")
  | Some si => Pkcs7.verify p7 (if Pkcs7.md si then Some signedBytes else None)
  end.

(** The block that verifies the integrity: its own [try] and [catch]. *)
Definition check_integrity (p7 : Pkcs7.Message) (signerInfo : option Pkcs7.SignerInfo)
    (signedBytes : list byte) : M unit :=
  try_catch
    (verified ← call (digestVerified p7 signerInfo signedBytes);
     update (set_integrityValid verified))
    (λ e, update (set_integrityValid false);;
          update (push_error ("Integrity verification failed: " ++ e))).

(** The block guarded by [if (cert)]. The chain listing comes before the
    integrity check and the trust flag, and [result.certificates] is assigned
    only if the listing returns. *)
Definition analyse_certificate (now : Z) (p7 : Pkcs7.Message)
    (signerInfo : option Pkcs7.SignerInfo) (cert : X509.Certificate)
    (signedBytes : list byte) : M unit :=
  let cn := X509.getField (X509.subject cert) "CN" in
  let email :=
    match X509.getField (X509.subject cert) "E" with
    | Some e => Some e
    | None => X509.getField (X509.subject cert) "emailAddress"
    end in
  update (set_signerName (from_option X509.value "Unknown" cn));;
  update (set_signerEmail (X509.value <$> email));;
  let notAfter := X509.notAfter (X509.validity cert) in
  update (set_isExpired (bool_decide (now > notAfter)%Z));;
  update (λ r, if isExpired r
               then push_warning ("Certificate expired on " ++ toLocaleDateString engine notAfter) r
               else r);;
  update (set_isSelfSigned
            (bool_decide (X509.hash (X509.issuer cert) = X509.hash (X509.subject cert))));;
  update (λ r, if isSelfSigned r
               then push_warning "Certificate is self-signed and may not be trusted." r
               else r);;
  certificates ← call (chain_listing now (default [] (Pkcs7.certificates p7)));
  update (set_certificates certificates);;
  check_integrity p7 signerInfo signedBytes;;
  update (λ r, set_certTrustValid (negb (isSelfSigned r) && negb (isExpired r)) r).

(** The signing time among the signed attributes of the signer, if there
    is a signer, it has signed attributes and one of them has the type of a
    signing time; reading the first element of the value of that one raises
    when the value is empty. *)
Definition signing_time (signerInfo : option Pkcs7.SignerInfo) : Exc (option Z) :=
  match signerInfo ≫= Pkcs7.authenticatedAttributes with
  | None => returns None
  | Some attrs =>
      match List.find (λ a, bool_decide (Pkcs7.type a = signingTimeOid forge)) attrs with
      | None => returns None
      | Some signingTimeAttr =>
          match head (Pkcs7.value signingTimeAttr) with
          | None => raise (typeErrorMessage engine "value")
          | Some v =>
              match utcTimeToDate forge v with
              | inl e => raise e
              | inr t => returns (Some t)
              end
          end
      end
  end.

(** The extraction of the signing time into [result]. *)
Definition extract_signing_time (signerInfo : option Pkcs7.SignerInfo) : M unit :=
  t ← call (signing_time signerInfo);
  match t with
  | Some t => update (set_signingTime (Some t))
  | None => ret tt
  end.

(** The block of the outer [try] of [verifyPDFSignature(sigObj, pdfBytes)];
    [now] is what [new Date()] gives. In its first test, [!byteRange] is
    false, [byteRange] being an array, and [!contents] decides. *)
Definition verifyPDFSignature_try (now : Z) (sigObj : Sig.Obj) (pdfBytes : list byte)
    : M unit :=
  match or_null (Sig.contents sigObj) with
  | None =>
      update (push_error "Missing ByteRange or Contents in signature dictionary.");;
      return_result
  | Some contents =>
      let byteRange := byteRange_at (Sig.byteRange sigObj) in
      let signedBytes :=
        extractByteRange pdfBytes
          [(byteRange 0, byteRange 1); (byteRange 2, byteRange 3)] in
      p7 ← try_catch (call (parseCMSSignature contents))
             (λ e, update (push_error ("Failed to parse signature CMS data: " ++ e));;
                   return_result);
      let signerInfo := Pkcs7.signers p7 ≫= head in
      let cert := Pkcs7.certificates p7 ≫= head in
      match cert with
      | Some cert => analyse_certificate now p7 signerInfo cert signedBytes
      | None => update (push_error "No certificates found in signature.")
      end;;
      extract_signing_time signerInfo;;
      update (set_reason (or_null (Sig.reason sigObj)));;
      update (set_location (or_null (Sig.location sigObj)))
  end.

(** The handler of the outer [catch]. *)
Definition unexpected_error (err : string) : M unit :=
  update (push_error ("Unexpected error: " ++ err)).

(** The body of [verifyPDFSignature], from the outer [try] to the end of
    its [catch]. *)
Definition verifyPDFSignature_body (now : Z) (sigObj : Sig.Obj) (pdfBytes : list byte)
    : M unit :=
  try_catch (verifyPDFSignature_try now sigObj pdfBytes) unexpected_error.

(** [verifyPDFSignature(sigObj, pdfBytes)]: the [result] object is created,
    the body runs on it, and the function returns it, either by a
    [return result] inside the [try] or by the one that ends the function. An
    error that left the body would leave the function. *)
Definition verifyPDFSignature (now : Z) (sigObj : Sig.Obj) (pdfBytes : list byte)
    : Exc VerificationResult :=
  match verifyPDFSignature_body now sigObj pdfBytes initial_result with
  | (Throw msg, _) => raise msg
  | (_, result) => returns result
  end.

(** The [result] object when the body of [verifyPDFSignature] ends. *)
Definition result_object (now : Z) (sigObj : Sig.Obj) (pdfBytes : list byte)
    : VerificationResult :=
  (verifyPDFSignature_body now sigObj pdfBytes initial_result).2.

End Verifier.

(** ** The status classifier *)

(** [getOverallStatus(sig)] *)
Definition getOverallStatus (sig : VerificationResult) : OverallStatus :=
  if bool_decide (0 < length (errors sig)) then invalid
  else if isExpired sig then expired
  else if isSelfSigned sig then self_signed
  else if negb (integrityValid sig) then tampered
  else if negb (certTrustValid sig) then untrusted
  else valid.

(** ** The field locator: the four marker patterns *)

Module Regex.

(** The patterns of the locator are sequences of literals and of greedy
    repetitions of a character class, captured or not. *)
Inductive item :=
| Lit (s : string)
| Rep (cls : ascii → bool) (min : nat) (capture : bool).

Definition code (c : ascii) : N := N_of_ascii c.

(** [\d] *)
Definition digit (c : ascii) : bool := bool_decide (48 ≤ code c ≤ 57)%N.

(** [\s] on a character of single-byte text: tab, line feed, vertical tab,
    form feed, carriage return, space and no-break space. *)
Definition space (c : ascii) : bool :=
  bool_decide (code c ∈ [9; 10; 11; 12; 13; 32; 160]%N).

(** [[0-9a-fA-F]] *)
Definition hex (c : ascii) : bool :=
  digit c || bool_decide (97 ≤ code c ≤ 102)%N || bool_decide (65 ≤ code c ≤ 70)%N.

(** [[^)]] *)
Definition not_rparen (c : ascii) : bool := negb (bool_decide (code c = 41%N)).

Fixpoint is_prefix (l s : list ascii) : bool :=
  match l, s with
  | [], _ => true
  | a :: l', b :: s' => bool_decide (a = b) && is_prefix l' s'
  | _ :: _, [] => false
  end.

(** The length of the longest run of [cls] characters at the head of [s]. *)
Fixpoint run_length (cls : ascii → bool) (s : list ascii) : nat :=
  match s with
  | c :: s' => if cls c then S (run_length cls s') else 0
  | [] => 0
  end.

(** Backtracking of a greedy repetition: [k] repetitions are tried first,
    then fewer, never fewer than [min]. *)
Fixpoint try_down {A} (f : nat → option A) (min k : nat) : option A :=
  if bool_decide (k < min) then None
  else match f k with
       | Some r => Some r
       | None => match k with
                 | 0 => None
                 | S k' => try_down f min k'
                 end
       end.

(** A match of the pattern at the head of [s]: the captured groups, in
    order, and the number of characters matched. *)
Fixpoint match_items (its : list item) (s : list ascii) : option (list string * nat) :=
  match its with
  | [] => Some ([], 0)
  | Lit l :: its' =>
      let l' := list_ascii_of_string l in
      if is_prefix l' s
      then '(caps, n) ← match_items its' (drop (length l') s); Some (caps, length l' + n)
      else None
  | Rep cls min capture :: its' =>
      try_down
        (λ k, '(caps, n) ← match_items its' (drop k s);
              Some (if capture then string_of_list_ascii (take k s) :: caps else caps,
                    k + n))
        min (run_length cls s)
  end.

(** The loop [while ((m = re.exec(text)) !== null)] of a pattern with the
    [g] flag: the matches from left to right, each searched from the end of
    the one before, with the captured groups and the index of each. [skip]
    counts the characters still covered by the last match. The patterns of
    the locator start with a literal, so a match is never empty. *)
Fixpoint exec_all (its : list item) (skip pos : nat) (s : list ascii)
    : list (list string * nat) :=
  match s with
  | [] => []
  | _ :: s' =>
      match skip with
      | S k => exec_all its k (S pos) s'
      | 0 =>
          match match_items its s with
          | Some (caps, len) => (caps, pos) :: exec_all its (pred len) (S pos) s'
          | None => exec_all its 0 (S pos) s'
          end
      end
  end.

End Regex.

Import Regex.

(** [/\/ByteRange\s*\[\s*(\d+)\s+(\d+)\s+(\d+)\s+(\d+)\s*\]/g] *)
Definition byteRangeRegex : list item :=
  [Lit "/ByteRange"; Rep space 0 false; Lit "["; Rep space 0 false;
   Rep digit 1 true; Rep space 1 false; Rep digit 1 true; Rep space 1 false;
   Rep digit 1 true; Rep space 1 false; Rep digit 1 true; Rep space 0 false;
   Lit "]"].

(** [/\/Contents\s*<([0-9a-fA-F]+)>/g] *)
Definition contentsRegex : list item :=
  [Lit "/Contents"; Rep space 0 false; Lit "<"; Rep hex 1 true; Lit ">"].

(** [reasonRegex]: the name [/Reason], optional white space, and between
    parentheses the captured run, possibly empty, of characters other than
    the closing parenthesis. *)
Definition reasonRegex : list item :=
  [Lit "/Reason"; Rep space 0 false; Lit "("; Rep not_rparen 0 true; Lit ")"].

(** [locationRegex]: the same with the name [/Location]. *)
Definition locationRegex : list item :=
  [Lit "/Location"; Rep space 0 false; Lit "("; Rep not_rparen 0 true; Lit ")"].

(** The integer that a run of decimal digits writes. *)
Definition decimal (s : string) : N :=
  foldl (λ acc c, 10 * acc + (code c - 48))%N 0%N (list_ascii_of_string s).

(** [parseInt(s)] on a run of decimal digits, which is what the groups of
    [byteRangeRegex] capture: the number written, as a double. *)
Definition parseInt (s : string) : Js.number := Js.to_double (decimal s).

(** [m[i]] for a group [i ≥ 1] of a match. *)
Definition group (caps : list string) (i : nat) : string := default "" (caps !! (i - 1)).

(** [new TextDecoder('latin1').decode(pdfBytes)]: one character per byte.
    The characters are identified with the bytes they come from; the seven
    [\s] bytes, the digits and the punctuation of the patterns decode to
    themselves. *)
Definition decode_latin1 (pdfBytes : list byte) : list ascii := ascii_of_byte <$> pdfBytes.

Module Locator.

Record SigData := { byteRange : Sig.ByteRange; brIndex : nat }.
Record Contents := { hex : string; index : nat }.
Record Text := { value : string; t_index : nat }.

End Locator.

Definition sigDataList (pdfText : list ascii) : list Locator.SigData :=
  (λ m : list string * nat,
     {| Locator.byteRange :=
          ((parseInt (group m.1 1), parseInt (group m.1 2)),
           (parseInt (group m.1 3), parseInt (group m.1 4)));
        Locator.brIndex := m.2 |})
  <$> exec_all byteRangeRegex 0 0 pdfText.

Definition allContents (pdfText : list ascii) : list Locator.Contents :=
  (λ m : list string * nat, {| Locator.hex := group m.1 1; Locator.index := m.2 |})
  <$> exec_all contentsRegex 0 0 pdfText.

Definition allReasons (pdfText : list ascii) : list Locator.Text :=
  (λ m : list string * nat, {| Locator.value := group m.1 1; Locator.t_index := m.2 |})
  <$> exec_all reasonRegex 0 0 pdfText.

Definition allLocations (pdfText : list ascii) : list Locator.Text :=
  (λ m : list string * nat, {| Locator.value := group m.1 1; Locator.t_index := m.2 |})
  <$> exec_all locationRegex 0 0 pdfText.

(** [sigDataList.map((sd, i) => ({...}))]: the pairing by index. *)
Definition sigObjects (pdfText : list ascii) : list Sig.Obj :=
  imap (λ i sd,
          {| Sig.byteRange := Locator.byteRange sd;
             Sig.contents := Locator.hex <$> allContents pdfText !! i;
             Sig.reason := Locator.value <$> allReasons pdfText !! i;
             Sig.location := Locator.value <$> allLocations pdfText !! i |})
       (sigDataList pdfText).

(** ** pdf.js *)

Module PdfJs.

Record Field := { type : string }.

(** The object [getFieldObjects()] resolves to: the fields of the form by
    name, in the order [Object.keys] lists the names. *)
Definition FieldObjects : Type := list (string * list Field).

(** A loaded document: its page count and what [getFieldObjects()] gives
    ([None] is [null], a document without a form). *)
Record Document := {
  numPages : N;
  getFieldObjects : Exc (option FieldObjects)
}.

(** [getDocument({ data })] hands [data] to the worker of pdf.js by
    transferring its buffer: the array the caller keeps is detached from
    then on, and has no element. This is [data] after the call. *)
Definition transferred (data : list byte) : list byte := [].

End PdfJs.

(** ** Verification of a document *)

Record Signature := {
  fieldName : string;
  verResult : VerificationResult
}.

Record DocumentResult := {
  numPages : N;
  signatures : list Signature;
  hasSignatures : bool;
  message : option string
}.

(** The signature-type fields of the form, with the name of each. *)
Definition sigFields (acroForm : option PdfJs.FieldObjects) : list (string * PdfJs.Field) :=
  match acroForm with
  | None => []
  | Some form =>
      '(fieldName, fields) ← form;
      field ← fields;
      if bool_decide (PdfJs.type field = "signature") then [(fieldName, field)] else []
  end.

(** The name given to the field of index [i]: that of the form field of
    the same index, or a numbered one. *)
Definition fieldName_at (sigFields : list (string * PdfJs.Field)) (i : nat) : string :=
  match sigFields !! i with
  | Some f => f.1
  | None => "Signature " ++ pretty (i + 1)
  end.

Section Document.

Context (forge : Forge) (engine : Engine).

(** [pdfjsLib.getDocument({ data }).promise] *)
Context (getDocument : list byte → Exc PdfJs.Document).

(** The instant [new Date()] gives during the verification of field [i]. *)
Context (clock : nat → Z).

(** The loop [for (let i = 0; i < sigObjects.length; i++)], from index [i]
    on, with the [signatures] pushed so far. *)
Fixpoint verify_each (sigFields : list (string * PdfJs.Field)) (pdfBytes : list byte)
    (i : nat) (sigObjects : list Sig.Obj) (signatures : list Signature)
    : Exc (list Signature) :=
  match sigObjects with
  | [] => returns signatures
  | sigObj :: rest =>
      match verifyPDFSignature forge engine (clock i) sigObj pdfBytes with
      | inl err => raise err
      | inr verResult =>
          verify_each sigFields pdfBytes (S i) rest
            (signatures ++ [{| fieldName := fieldName_at sigFields i;
                               verResult := verResult |}])
      end
  end.

(** The entry pushed for the field of index [i]. *)
Definition verified_field (sigFields : list (string * PdfJs.Field)) (pdfBytes : list byte)
    (i : nat) (sigObj : Sig.Obj) : Signature :=
  {| fieldName := fieldName_at sigFields i;
     verResult := result_object forge engine (clock i) sigObj pdfBytes |}.

(** The handler [reader.onload] of [verifyPDFSignatures], for the bytes
    [data] the reader delivers. The array [pdfBytes] is built on them and
    given to pdf.js; when the document is loaded its buffer has been
    transferred, and it is on what is left of [pdfBytes] that the rest of
    the handler works. *)
Definition onload (data : list byte) : Promise DocumentResult :=
  match getDocument data with
  | inl err => reject (Rejection.Error err)
  | inr pdfDoc =>
      let pdfBytes := PdfJs.transferred data in
      match PdfJs.getFieldObjects pdfDoc with
      | inl err => reject (Rejection.Error err)
      | inr acroForm =>
          let sigFields := sigFields acroForm in
          if bool_decide (length sigFields = 0) then
            resolve {| numPages := PdfJs.numPages pdfDoc;
                       signatures := [];
                       hasSignatures := false;
                       message := Some "No digital signatures found in this document." |}
          else
            let pdfText := decode_latin1 pdfBytes in
            match verify_each sigFields pdfBytes 0 (sigObjects pdfText) [] with
            | inl err => reject (Rejection.Error err)
            | inr signatures =>
                resolve {| numPages := PdfJs.numPages pdfDoc;
                           signatures := signatures;
                           hasSignatures := bool_decide (0 < length signatures);
                           message := None |}
            end
      end
  end.

(** [verifyPDFSignatures(file)]: the value the promise resolves to, or what
    it is rejected with. The reader is asked for the bytes of the file;
    [reader.onerror] is [reject] itself, which receives the event. *)
Definition verifyPDFSignatures (file : File.t) : Promise DocumentResult :=
  if File.readable file then onload (File.bytes file)
  else reject Rejection.Event.

End Document.

(** ** The certificate inspector *)

Record CertificateInfo := {
  ci_subject : gmap string string;
  ci_issuer : gmap string string;
  ci_serialNumber : string;
  ci_validFrom : Z;
  ci_validTo : Z;
  ci_isExpired : bool;
  ci_isSelfSigned : bool;
  ci_fingerprint : string;
  ci_publicKeyAlgorithm : string;
  ci_keySize : option N;
  ci_extensions : list (string * string)
}.

(** [extractDN(entity)]: an object with a property per short name; an
    attribute met later replaces one of the same short name. *)
Definition extractDN (entity : X509.Name) : gmap string string :=
  foldl (λ fields attr, <[X509.shortName attr := X509.value attr]> fields) ∅
        (X509.attributes entity).

(** The text made of [n] characters of code 0. *)
Definition nul_string (n : N) : string :=
  string_of_list_ascii (replicate (N.to_nat n) Ascii.zero).

Section Inspector.

Context (forge : Forge) (engine : Engine).

(** The two decoding attempts of [verifyCertificate]. The file was read as
    text. The attempt that follows a failure of the first one builds
    [new Uint8Array(text)] from that text, a string: an array of
    [ToIndex(text)] zeros, whose characters make [derStr]. *)
Definition decode_certificate (text : string) : Exc X509.Certificate :=
  match certificateFromPem forge text with
  | inr cert => returns cert
  | inl _ =>
      match toIndex engine text with
      | inl err => raise err
      | inr len =>
          let derStr := nul_string len in
          certificateFromDer forge derStr
      end
  end.

(** The result object built from a decoded certificate: the properties of
    the object literal are evaluated in order, and those that follow the
    fingerprint only if [cert.toAsn1()] returns. *)
Definition inspect (now : Z) (cert : X509.Certificate) : Exc CertificateInfo :=
  let isExpired := bool_decide (now > X509.notAfter (X509.validity cert))%Z in
  let isSelfSigned :=
    bool_decide (X509.hash (X509.issuer cert) = X509.hash (X509.subject cert)) in
  let subject := extractDN (X509.subject cert) in
  let issuer := extractDN (X509.issuer cert) in
  match fingerprint forge engine "cert.toAsn1" cert with
  | inl err => raise err
  | inr fingerprint =>
      returns {|
        ci_subject := subject;
        ci_issuer := issuer;
        ci_serialNumber := X509.serialNumber cert;
        ci_validFrom := X509.notBefore (X509.validity cert);
        ci_validTo := X509.notAfter (X509.validity cert);
        ci_isExpired := isExpired;
        ci_isSelfSigned := isSelfSigned;
        ci_fingerprint := fingerprint;
        ci_publicKeyAlgorithm :=
          match X509.n (X509.publicKey cert) with Some _ => "RSA" | None => "EC" end;
        ci_keySize := X509.bitLength <$> X509.n (X509.publicKey cert);
        ci_extensions :=
          (λ e, (X509.name e,
                 match X509.ext_value e with
                 | X509.Text s => s
                 | X509.Structured json => json
                 end)) <$> X509.extensions cert
      |}
  end.

(** The [try] block of the handler [reader.onload] of [verifyCertificate],
    for the [text] the reader delivers. *)
Definition inspect_text (now : Z) (text : string) : Exc CertificateInfo :=
  match decode_certificate text with
  | inl err => raise err
  | inr cert => inspect now cert
  end.

(** [verifyCertificate(file)]: the value the promise resolves to, or what it
    is rejected with. The file is read as text; an error raised in the
    handler is rejected as a new [Error], and [reader.onerror] is [reject]
    itself. *)
Definition verifyCertificate (now : Z) (file : File.t) : Promise CertificateInfo :=
  if File.readable file then
    match inspect_text now (utf8Decode engine (File.bytes file)) with
    | inl err => reject (Rejection.Error ("Failed to parse certificate: " ++ err))
    | inr info => resolve info
    end
  else reject Rejection.Event.

End Inspector.

(** ** The document-level status ([App.jsx]) *)

(** The callback of [result.signatures.reduce]. *)
Definition reduce_step (acc : OverallStatus) (sig : Signature) : OverallStatus :=
  let s := getOverallStatus (verResult sig) in
  if bool_decide (s = invalid) || bool_decide (s = tampered) then invalid
  else if bool_decide (acc = valid)
          && (bool_decide (s = expired) || bool_decide (s = self_signed)
              || bool_decide (s = untrusted))
  then s
  else acc.

(** [overallStatus] of [PDFVerifierTab], for a [result] that is not [null]. *)
Definition overallStatus (result : DocumentResult) : OverallStatus :=
  if hasSignatures result
  then foldl reduce_step valid (signatures result)
  else none.

(** ** A stand-in library for the examples

    The examples below run the engine on concrete documents. They need
    some library behind it: this one knows a single envelope, signed by a
    leaf certificate issued by a root, and a single certificate file. *)

Module Fixture.

Definition alice : X509.Name := {|
  X509.attributes := [ {| X509.shortName := "CN"; X509.value := "Alice" |};
                       {| X509.shortName := "O"; X509.value := "Example" |} ];
  X509.hash := "5e1f"
|}.

Definition authority : X509.Name := {|
  X509.attributes := [ {| X509.shortName := "O"; X509.value := "Example" |};
                       {| X509.shortName := "OU"; X509.value := "Root" |} ];
  X509.hash := "77c0"
|}.

Definition leaf : X509.Certificate := {|
  X509.subject := alice;
  X509.issuer := authority;
  X509.serialNumber := "01";
  X509.validity := {| X509.notBefore := 1000; X509.notAfter := 5000 |};
  X509.publicKey := {| X509.n := Some 187%N |};
  X509.extensions := [ {| X509.name := "basicConstraints";
                          X509.ext_value := X509.Structured "{}" |} ]
|}.

Definition root : X509.Certificate := {|
  X509.subject := authority;
  X509.issuer := authority;
  X509.serialNumber := "00";
  X509.validity := {| X509.notBefore := 0; X509.notAfter := 9000 |};
  X509.publicKey := {| X509.n := None |};
  X509.extensions := []
|}.

Definition signer : Pkcs7.SignerInfo := {|
  Pkcs7.md := false;
  Pkcs7.authenticatedAttributes :=
    Some [ {| Pkcs7.type := "1.2.840.113549.1.9.5"; Pkcs7.value := ["700101000002Z"] |} ]
|}.

(** The envelope: its verification primitive succeeds. *)
Definition envelope : Pkcs7.Message := {|
  Pkcs7.signers := Some [signer];
  Pkcs7.certificates := Some [leaf; root];
  Pkcs7.verify := λ _, returns true
|}.

(** The encoded bytes of the certificate file of the examples. *)
Definition leaf_der : string := "0" ++ String (ascii_of_N 3) "leaf".

Definition forge : Forge := {|
  hexToBytes := λ hex, hex;
  messageFromDer := λ der,
    if bool_decide (der = "3082") then returns envelope
    else raise "Too few bytes to parse DER.";
  certificateFromPem := λ pem,
    if bool_decide (pem = "-----BEGIN CERTIFICATE-----leaf-----END CERTIFICATE-----")
    then returns leaf
    else raise "Invalid PEM formatted message.";
  certificateFromDer := λ der,
    if bool_decide (der = leaf_der) then returns leaf
    else raise "Too few bytes to parse DER.";
  toDer := λ asn1, "0" ++ String (ascii_of_N 3) (X509.serialNumber (X509.of_certificate asn1));
  sha256Hex := λ bytes, "sha256:" ++ bytes;
  utcTimeToDate := λ _, returns 2000%Z;
  signingTimeOid := "1.2.840.113549.1.9.5"
|}.

(** No text of the examples is a numeric literal: [ToIndex] is [0] on them.
    The files of the examples hold characters of one byte: their text has
    one character per byte. *)
Definition engine : Engine := {|
  toLocaleDateString := λ _, "1/1/1970";
  typeErrorMessage := λ p,
    "Cannot read properties of undefined (reading '" ++ p ++ "')";
  notAFunction := λ callee, callee ++ " is not a function";
  toIndex := λ _, returns 0%N;
  utf8Decode := string_of_list_byte
|}.

(** Every document of the examples has one page and a form with two
    signature fields and a text field. *)
Definition getDocument (pdfBytes : list byte) : Exc PdfJs.Document :=
  returns {|
    PdfJs.numPages := 1;
    PdfJs.getFieldObjects :=
      returns (Some [ ("Approval", [ {| PdfJs.type := "signature" |} ]);
                      ("Name", [ {| PdfJs.type := "text" |} ]);
                      ("Review", [ {| PdfJs.type := "signature" |} ]) ])
  |}.

(** The bytes of a text. *)
Definition bytes_of (text : string) : list byte := list_byte_of_string text.

(** A document of 126 bytes with two signature dictionaries. The spans of
    the first reach byte 900000; the second has no envelope. *)
Definition two_fields : list byte :=
  bytes_of ("%PDF-1.7 /ByteRange [0 40 600000 300000] /Contents <3082> "
            ++ "/Reason (approved) /ByteRange [ 0 10 20 30 ] /Location (Paris) %%EOF").

(** A document with a form but no signature dictionary. *)
Definition unsigned_form : list byte := bytes_of "%PDF-1.7 /AcroForm << >> %%EOF".

(** A file that holds [content] and can be read. *)
Definition file (name : string) (content : list byte) : File.t :=
  {| File.name := name;
     File.size := N.of_nat (length content);
     File.bytes := content;
     File.readable := true |}.

End Fixture.

(** ** Notions of the specification *)

(** The order on statuses that the specification uses for a document:
    [invalid] and [tampered] are the most severe and equivalent; [expired],
    [self_signed] and [untrusted] come next and are equivalent; [valid] is
    the least severe. ([none] is not a status of a signature.) *)
Definition severity (s : OverallStatus) : nat :=
  match s with
  | invalid | tampered => 2
  | expired | self_signed | untrusted => 1
  | valid | none => 0
  end.



(** A span [(offset, length)] that ends past the end of a document. *)
Definition exceeds (span : N * N) (pdfBytes : list byte) : Prop :=
  (N.of_nat (length pdfBytes) < span.1 + span.2)%N.

(** The bytes of the span [(offset, length)] that lie inside a document. *)
Definition clamped (pdfBytes : list byte) (span : N * N) : list byte :=
  let len := N.of_nat (length pdfBytes) in
  take (N.to_nat (N.min (span.1 + span.2) len - N.min span.1 len))
       (drop (N.to_nat (N.min span.1 len)) pdfBytes).

(** ** The last steps of a verification *)

(** The steps of [verifyPDFSignature] that follow the certificate step, as
    a function of the state [r1] that step leaves: the signing time is
    extracted and the reason and the location are copied, unless the
    extraction raises, which the outer handler reports. *)
Definition finish (forge : Forge) (engine : Engine)
    (signerInfo : option Pkcs7.SignerInfo) (sigObj : Sig.Obj)
    (r1 : VerificationResult) : VerificationResult :=
  match signing_time forge engine signerInfo with
  | inl e => push_error ("Unexpected error: " ++ e) r1
  | inr t =>
      set_location (or_null (Sig.location sigObj))
        (set_reason (or_null (Sig.reason sigObj))
           (match t with Some t => set_signingTime (Some t) r1 | None => r1 end))
  end.

(** What the block guarded by [if (cert)] has written into the initial
    [result] when it reaches the chain listing: the signer, the two flags
    and their warnings. *)
Definition certificate_flags (engine : Engine) (now : Z) (cert : X509.Certificate)
    : VerificationResult :=
  let expired := bool_decide (now > X509.notAfter (X509.validity cert))%Z in
  let selfSigned :=
    bool_decide (X509.hash (X509.issuer cert) = X509.hash (X509.subject cert)) in
  {| signerName := from_option X509.value "Unknown" (X509.getField (X509.subject cert) "CN");
     signerEmail :=
       X509.value <$>
         match X509.getField (X509.subject cert) "E" with
         | Some e => Some e
         | None => X509.getField (X509.subject cert) "emailAddress"
         end;
     signingTime := None;
     reason := None;
     location := None;
     certificates := [];
     integrityValid := false;
     certTrustValid := false;
     isExpired := expired;
     isSelfSigned := selfSigned;
     errors := [];
     warnings :=
       ((if expired
         then [("Certificate expired on " ++
                toLocaleDateString engine (X509.notAfter (X509.validity cert)))%string]
         else []) ++
        (if selfSigned
         then ["Certificate is self-signed and may not be trusted."]
         else []))%list |}.

(** The text [rest] cannot continue a run of [cls] characters: it is empty
    or starts with a character outside the class. *)
Definition ends_run (cls : ascii → bool) (rest : list ascii) : Prop :=
  match rest with
  | [] => True
  | c :: _ => cls c = false
  end.

(** ** The report *)

Module Report.

Record Signature := {
  fieldName : string;
  signer : string;
  email : option string;
  signingTime : option Z;
  reason : option string;
  location : option string;
  integrityValid : bool;
  certTrustValid : bool;
  isExpired : bool;
  isSelfSigned : bool;
  overallStatus : string;
  certificates : list Chain.Entry;
  errors : list string;
  warnings : list string
}.


End Report.


(** ** The counters of the verifier tab ([App.jsx]) *)

(** [validCount], [warnCount] and [badCount] of [PDFVerifierTab]; [result] is
    [null] before a document is verified. *)
Definition validCount (result : option DocumentResult) : nat :=
  from_option
    (λ r, length (filter (λ s, getOverallStatus (verResult s) = valid) (signatures r)))
    0 result.

Definition warnCount (result : option DocumentResult) : nat :=
  from_option
    (λ r, length (filter (λ s, getOverallStatus (verResult s)
                                 ∈ [expired; self_signed; untrusted])
                         (signatures r)))
    0 result.

Definition badCount (result : option DocumentResult) : nat :=
  from_option
    (λ r, length (filter (λ s, getOverallStatus (verResult s) ∈ [invalid; tampered])
                         (signatures r)))
    0 result.

(** ** The history and the batch ([App.jsx]) *)

Module History.

(** An entry of the history or of the results of a batch; [error] is the
    [message] of what the verification of the file was rejected with, when
    it was and that has one. *)
Record Entry := {
  fileName : string;
  fileSize : N;
  result : option DocumentResult;
  error : option string;
  time : Z
}.

End History.

(** The update of [addToHistory]: [[entry, ...prev].slice(0, 50)]. *)
Definition addToHistory (entry : History.Entry) (prev : list History.Entry)
    : list History.Entry :=
  take 50 (entry :: prev).

(** The status shown on the card of an entry of a batch. *)
Definition batchStatus (entry : History.Entry) : OverallStatus :=
  let failed :=
    match or_null (History.error entry) with
    | Some _ => invalid
    | None => none
    end in
  match History.result entry with
  | Some r => if hasSignatures r then foldl reduce_step valid (signatures r) else failed
  | None => failed
  end.

Section Batch.

Context (forge : Forge) (engine : Engine).
Context (getDocument : list byte → Exc PdfJs.Document).

(** The instants [new Date()] gives while file [k] of a batch is verified,
    and the one [Date.now()] gives when its entry is built. *)
Context (clock : nat → nat → Z) (dateNow : nat → Z).

(** The loop of [processBatch], from file [k] on: the state is the array
    [results] and the history. *)
Fixpoint processBatch_loop (k : nat) (files : list File.t)
    (st : list History.Entry * list History.Entry)
    : list History.Entry * list History.Entry :=
  match files with
  | [] => st
  | file :: rest =>
      match verifyPDFSignatures forge engine getDocument (clock k) file with
      | inr res =>
          let entry := {| History.fileName := File.name file;
                          History.fileSize := File.size file;
                          History.result := Some res;
                          History.error := None;
                          History.time := dateNow k |} in
          processBatch_loop (S k) rest ((st.1 ++ [entry])%list, addToHistory entry st.2)
      | inl err =>
          let entry := {| History.fileName := File.name file;
                          History.fileSize := File.size file;
                          History.result := None;
                          History.error := Rejection.message err;
                          History.time := dateNow k |} in
          processBatch_loop (S k) rest ((st.1 ++ [entry])%list, st.2)
      end
  end.

(** [processBatch(files)]: the results shown and the history afterwards. *)
Definition processBatch (files : list File.t) (history : list History.Entry)
    : list History.Entry * list History.Entry :=
  processBatch_loop 0 files ([], history).

End Batch.

(** The entry the loop builds for file [i] of a batch: the result of the
    verification when it resolves, the message of the error when it is
    rejected. *)
Definition entry_of_file (forge : Forge) (engine : Engine)
    (getDocument : list byte → Exc PdfJs.Document)
    (clock : nat → nat → Z) (dateNow : nat → Z)
    (i : nat) (file : File.t) (entry : History.Entry) : Prop :=
  History.fileName entry = File.name file ∧
  History.fileSize entry = File.size file ∧
  History.time entry = dateNow i ∧
  match verifyPDFSignatures forge engine getDocument (clock i) file with
  | inr res => History.result entry = Some res ∧ History.error entry = None
  | inl err => History.result entry = None ∧ History.error entry = Rejection.message err
  end.

(** ** Toasts ([App.jsx]) *)

Module Toast.

Record Item := { id : nat; message : string; type : string }.

(** The counter [toastId] of the module and the [toasts] of the hook. *)
Record State := { toastId : nat; toasts : list Item }.

Definition initial : State := {| toastId := 0; toasts := [] |}.

(** [addToast(message, type)] *)
Definition addToast (message type : string) (st : State) : State :=
  let id := S (toastId st) in
  {| toastId := id;
     toasts := toasts st ++ [ {| id := id; message := message; type := type |} ] |}.

(** [dismiss(id)]; the timer that [addToast] starts applies the same filter
    when it fires. *)
Definition dismiss (i : nat) (st : State) : State :=
  {| toastId := toastId st; toasts := filter (λ t, id t ≠ i) (toasts st) |}.

Inductive event :=
| Add (message type : string)
| Dismiss (i : nat)
| Expire (i : nat).

Definition step (st : State) (ev : event) : State :=
  match ev with
  | Add message type => addToast message type st
  | Dismiss i | Expire i => dismiss i st
  end.

End Toast.

(** * Properties *)

Local Open Scope list_scope.
Local Open Scope nat_scope.

(** ** The locator on small texts *)

(** White space is optional around the bracket and required between the
    numbers; a marker with three numbers is not a match. *)
Example byteRange_matches :
  sigDataList (list_ascii_of_string
                 "1 0 obj /ByteRange[ 0 840  960 240 ] /ByteRange [1 2 3] endobj")
  = [ {| Locator.byteRange := Sig.range 0 840 960 240; Locator.brIndex := 8 |} ].
Proof. vm_compute. reflexivity. Qed.

(** A search starts where the match before ended, and the contents must be
    hexadecimal digits up to the closing bracket. *)
Example contents_matches :
  allContents (list_ascii_of_string "/Contents <30Ab> /Contents <xy> /Contents<00>")
  = [ {| Locator.hex := "30Ab"; Locator.index := 0 |};
      {| Locator.hex := "00"; Locator.index := 32 |} ].
Proof. vm_compute. reflexivity. Qed.

(** A reason stops at the first closing parenthesis and may be empty. *)
Example reason_matches :
  allReasons (list_ascii_of_string "/Reason (I agree (v2)) /Reason ()")
  = [ {| Locator.value := "I agree (v2"; Locator.t_index := 0 |};
      {| Locator.value := ""; Locator.t_index := 23 |} ].
Proof. vm_compute. reflexivity. Qed.

(** The reason of a field is that of the reason match of the same index,
    here one written before the byte range of another field. *)
Example pairing_is_positional :
  sigObjects (list_ascii_of_string
                "/ByteRange [0 1 2 3] /Contents <0a> /ByteRange [4 5 6 7] /Reason (second)")
  = [ {| Sig.byteRange := Sig.range 0 1 2 3; Sig.contents := Some "0a";
         Sig.reason := Some "second"; Sig.location := None |};
      {| Sig.byteRange := Sig.range 4 5 6 7; Sig.contents := None;
         Sig.reason := None; Sig.location := None |} ].
Proof. vm_compute. reflexivity. Qed.

(** ** The status classifier *)


Lemma errors_nonempty_length (sig : VerificationResult) :
  errors sig ≠ [] ↔ 0 < length (errors sig).
Proof. destruct (errors sig); simpl; split; (done || lia). Qed.

(** C1. [getOverallStatus] applies its tests in a strict order and the first
    that holds decides: a non-empty error list gives [invalid]; else an
    expired certificate gives [expired]; else a self-signed one gives
    [self_signed]; else a failed integrity check gives [tampered]; else a
    failed trust check gives [untrusted]; else the status is [valid]. In
    particular a result with errors and an expired certificate is [invalid],
    not [expired]. *)
Theorem getOverallStatus_precedence (sig : VerificationResult) :
  (errors sig ≠ [] → getOverallStatus sig = invalid) ∧
  (errors sig = [] → isExpired sig = true → getOverallStatus sig = expired) ∧
  (errors sig = [] → isExpired sig = false → isSelfSigned sig = true →
   getOverallStatus sig = self_signed) ∧
  (errors sig = [] → isExpired sig = false → isSelfSigned sig = false →
   integrityValid sig = false → getOverallStatus sig = tampered) ∧
  (errors sig = [] → isExpired sig = false → isSelfSigned sig = false →
   integrityValid sig = true → certTrustValid sig = false →
   getOverallStatus sig = untrusted) ∧
  (errors sig = [] → isExpired sig = false → isSelfSigned sig = false →
   integrityValid sig = true → certTrustValid sig = true →
   getOverallStatus sig = valid) ∧
  (errors sig ≠ [] → isExpired sig = true →
   getOverallStatus sig = invalid ∧ getOverallStatus sig ≠ expired).
Proof.
  unfold getOverallStatus.
  case_bool_decide as Hlen; apply errors_nonempty_length in Hlen || rewrite <- errors_nonempty_length in Hlen.
  - repeat split; done.
  - assert (errors sig = []) by (destruct (errors sig); [done | by destruct Hlen]).
    repeat split; try done; intros;
      repeat match goal with H : _ = _ |- _ => rewrite H end; done.
Qed.

Lemma getOverallStatus_precedence_witness :
  let sig := push_error "Unexpected error: boom" (set_isExpired true initial_result) in
  errors sig ≠ [] ∧ isExpired sig = true ∧
  getOverallStatus sig = invalid ∧ getOverallStatus sig ≠ expired.
Proof.
  intros sig.
  destruct (getOverallStatus_precedence sig) as (_ & _ & _ & _ & _ & _ & Hboth).
  assert (errors sig ≠ []) as Herr by done.
  split; [exact Herr|]. split; [reflexivity|]. exact (Hboth Herr eq_refl).
Defined.

(** ** Byte-range extraction *)

Lemma total_length_from (parts : list (list byte)) (a : nat) :
  foldl (λ acc p, acc + length p) a parts = a + foldl (λ acc p, acc + length p) 0 parts.
Proof.
  revert a. induction parts as [|p parts IH]; intros a; simpl; [lia|].
  rewrite (IH (a + length p)), (IH (length p)). lia.
Qed.

(** The copying loop writes the parts one after the other. *)
Lemma copy_loop (parts : list (list byte)) (filled rest : list byte) :
  length rest = foldl (λ acc p, acc + length p) 0 parts →
  (foldl copy_part (filled ++ rest, length filled) parts).1 = filled ++ concat parts.
Proof.
  revert filled rest. induction parts as [|p parts IH]; intros filled rest Hlen; simpl in *.
  - destruct rest; [done | simpl in Hlen; lia].
  - rewrite total_length_from in Hlen.
    unfold copy_part at 2. simpl. unfold set_at.
    rewrite take_app_length, drop_app_add, (app_assoc filled p), <- length_app.
    rewrite IH; [by rewrite <- app_assoc|].
    rewrite length_drop. lia.
Qed.

(** [extractByteRange] returns the slices, joined in order. *)
Lemma extractByteRange_concat (pdfBytes : list byte) (byteRanges : list (Js.value * Js.value)) :
  extractByteRange pdfBytes byteRanges =
    concat ((λ r : Js.value * Js.value, slice pdfBytes r.1 (Js.add r.1 r.2)) <$> byteRanges).
Proof.
  unfold extractByteRange.
  apply (copy_loop _ [] (replicate _ Byte.x00)). by rewrite length_replicate.
Qed.

(** The slice of a numeric span is its part inside the document. *)
Lemma slice_span (pdfBytes : list byte) (span : N * N) :
  slice pdfBytes (Js.Num span.1) (Js.add (Js.Num span.1) (Js.Num span.2)) =
    clamped pdfBytes span.
Proof. reflexivity. Qed.

Lemma clamped_length (pdfBytes : list byte) (span : N * N) :
  length (clamped pdfBytes span) ≤ length pdfBytes ∧
  (N.of_nat (length (clamped pdfBytes span)) ≤ span.2)%N.
Proof.
  unfold clamped. rewrite length_take, length_drop. lia.
Qed.

(** On numeric spans [extractByteRange] never fails and never reads past the
    end of the document: each span is cut to the part of it that exists. *)
Lemma extractByteRange_clamps (pdfBytes : list byte) (spans : list (N * N)) :
  extractByteRange pdfBytes ((λ sp : N * N, (Js.Num sp.1, Js.Num sp.2)) <$> spans) =
    concat (clamped pdfBytes <$> spans).
Proof.
  rewrite extractByteRange_concat, <- list_fmap_compose. reflexivity.
Qed.

(** The verifier reads elements 0 to 3 of the [byteRange] of the signature
    object, which has two elements, both arrays: none of the four values is
    a number, both slices are empty, and so are the signed bytes. *)
Lemma signed_bytes_of_signature_object (pdfBytes : list byte) (br : Sig.ByteRange) :
  extractByteRange pdfBytes
    [(byteRange_at br 0, byteRange_at br 1); (byteRange_at br 2, byteRange_at br 3)] = [].
Proof.
  rewrite extractByteRange_concat. simpl. unfold slice. simpl.
  rewrite !N.min_0_l. reflexivity.
Qed.

(** ** The control flow of the verifier *)

Ltac run :=
  unfold analyse_certificate, check_integrity, extract_signing_time, try_catch, call,
    update, return_result, throw, raise, returns, mbind, M_bind, bind, mret, M_ret, ret in *;
  simpl in *.

Section VerifierFacts.

Context (forge : Forge) (engine : Engine).

Implicit Types (r : VerificationResult) (sigObj : Sig.Obj) (pdfBytes : list byte).

(** No fingerprint is computed: the call of [toAsn1] raises. *)
Lemma fingerprint_raises callee c :
  fingerprint forge engine callee c = raise (notAFunction engine callee).
Proof. reflexivity. Qed.

(** The chain listing of an envelope with a certificate raises on the
    first one. *)
Lemma chain_listing_raises now c rest :
  chain_listing forge engine now (c :: rest) = raise (notAFunction engine "c.toAsn1").
Proof. reflexivity. Qed.

Lemma chain_listing_returns now certs entries :
  chain_listing forge engine now certs = returns entries → certs = [] ∧ entries = [].
Proof.
  destruct certs as [|c rest]; [|by rewrite chain_listing_raises].
  simpl. unfold returns. by intros [= <-].
Qed.

Lemma first_certificate p7 cert :
  Pkcs7.certificates p7 ≫= head = Some cert →
  ∃ rest, default [] (Pkcs7.certificates p7) = cert :: rest.
Proof.
  destruct (Pkcs7.certificates p7) as [[|c rest]|]; simpl; [done| |done].
  intros [= ->]. by exists rest.
Qed.

(** The block of the integrity check, from whatever state: it raises
    nothing, and records an error of the check. *)
Lemma check_integrity_spec p7 signerInfo signedBytes r :
  check_integrity engine p7 signerInfo signedBytes r =
    (Normal tt,
     match digestVerified engine p7 signerInfo signedBytes with
     | inl e => push_error ("Integrity verification failed: " +:+ e) (set_integrityValid false r)
     | inr verified => set_integrityValid verified r
     end).
Proof.
  destruct r. run.
  destruct (digestVerified engine p7 signerInfo signedBytes); reflexivity.
Qed.

(** The certificate block stops at the chain listing, with the signer, the
    flags and the warnings written. *)
Lemma analyse_certificate_spec now p7 signerInfo cert signedBytes :
  Pkcs7.certificates p7 ≫= head = Some cert →
  analyse_certificate forge engine now p7 signerInfo cert signedBytes initial_result =
    (Throw (notAFunction engine "c.toAsn1"), certificate_flags engine now cert).
Proof.
  intros (rest & Hcerts)%first_certificate.
  unfold analyse_certificate. rewrite Hcerts, chain_listing_raises.
  unfold certificate_flags. run.
  repeat case_bool_decide; reflexivity.
Qed.

(** No error leaves the body: the outer [catch] handles each one, and its
    handler only pushes a message. *)
Lemma verifyPDFSignature_body_no_throw now sigObj pdfBytes r msg :
  (verifyPDFSignature_body forge engine now sigObj pdfBytes r).1 ≠ Throw msg.
Proof.
  unfold verifyPDFSignature_body, try_catch.
  destruct (verifyPDFSignature_try _ _ _ _ _ r) as [[[]| |m] r']; done.
Qed.

Lemma verifyPDFSignature_total now sigObj pdfBytes :
  verifyPDFSignature forge engine now sigObj pdfBytes =
    returns (result_object forge engine now sigObj pdfBytes).
Proof.
  unfold verifyPDFSignature, result_object.
  pose proof (verifyPDFSignature_body_no_throw now sigObj pdfBytes initial_result) as H.
  destruct (verifyPDFSignature_body _ _ _ _ _ _) as [[[]| |m] r']; simpl in *;
    [done | done | by destruct (H m)].
Qed.

(** The four ways a verification ends. First: a signature object without
    contents. *)
Lemma result_object_missing now sigObj pdfBytes :
  or_null (Sig.contents sigObj) = None →
  result_object forge engine now sigObj pdfBytes =
    push_error "Missing ByteRange or Contents in signature dictionary." initial_result.
Proof.
  intros H. unfold result_object, verifyPDFSignature_body, verifyPDFSignature_try, unexpected_error. rewrite H. reflexivity.
Qed.

(** Second: an envelope that does not decode. *)
Lemma result_object_undecoded now sigObj pdfBytes contents e :
  or_null (Sig.contents sigObj) = Some contents →
  parseCMSSignature forge contents = raise e →
  result_object forge engine now sigObj pdfBytes =
    push_error ("Failed to parse signature CMS data: " +:+ e) initial_result.
Proof.
  intros H1 H2. unfold result_object, verifyPDFSignature_body, verifyPDFSignature_try, unexpected_error. rewrite H1.
  run. rewrite H2. reflexivity.
Qed.

(** Third: an envelope without certificate. The signing time is extracted
    and the reason and the location are copied, unless the extraction
    raises. *)
Lemma result_object_uncertified now sigObj pdfBytes contents p7 :
  or_null (Sig.contents sigObj) = Some contents →
  parseCMSSignature forge contents = returns p7 →
  Pkcs7.certificates p7 ≫= head = None →
  result_object forge engine now sigObj pdfBytes =
    finish forge engine (Pkcs7.signers p7 ≫= head) sigObj
      (push_error "No certificates found in signature." initial_result).
Proof.
  intros H1 H2 H3.
  unfold result_object, verifyPDFSignature_body, verifyPDFSignature_try, unexpected_error,
    finish.
  rewrite H1. cbv zeta.
  remember (Pkcs7.signers p7 ≫= head) as signerInfo eqn:Hsi.
  unfold try_catch at 1. unfold mbind at 1, M_bind at 1, bind at 1.
  unfold try_catch at 1. unfold call at 1. rewrite H2.
  unfold returns. cbv beta iota. unfold ret at 1. cbv beta iota.
  rewrite <- Hsi, H3.
  unfold extract_signing_time.
  destruct (signing_time forge engine signerInfo) as [e|[t|]]; reflexivity.
Qed.

(** Fourth: an envelope with a certificate. The chain listing raises, the
    outer handler reports it, and nothing of what follows the listing is
    done: no integrity check, no trust flag, no signing time, no reason, no
    location. *)
Lemma result_object_certified now sigObj pdfBytes contents p7 cert :
  or_null (Sig.contents sigObj) = Some contents →
  parseCMSSignature forge contents = returns p7 →
  Pkcs7.certificates p7 ≫= head = Some cert →
  result_object forge engine now sigObj pdfBytes =
    push_error ("Unexpected error: " +:+ notAFunction engine "c.toAsn1")
      (certificate_flags engine now cert).
Proof.
  intros H1 H2 H3.
  unfold result_object, verifyPDFSignature_body, verifyPDFSignature_try, unexpected_error.
  rewrite H1. cbv zeta.
  remember (Pkcs7.signers p7 ≫= head) as signerInfo eqn:Hsi.
  unfold try_catch at 1. unfold mbind at 1, M_bind at 1, bind at 1.
  unfold try_catch at 1. unfold call at 1. rewrite H2.
  unfold returns. cbv beta iota. unfold ret at 1. cbv beta iota.
  rewrite <- Hsi, H3.
  unfold mbind at 1, M_bind at 1, bind at 1.
  rewrite analyse_certificate_spec by done. reflexivity.
Qed.

Lemma result_object_cases now sigObj pdfBytes :
  let r := result_object forge engine now sigObj pdfBytes in
  (or_null (Sig.contents sigObj) = None ∧
   r = push_error "Missing ByteRange or Contents in signature dictionary." initial_result) ∨
  (∃ contents e,
     or_null (Sig.contents sigObj) = Some contents ∧
     parseCMSSignature forge contents = raise e ∧
     r = push_error ("Failed to parse signature CMS data: " +:+ e) initial_result) ∨
  (∃ contents p7,
     or_null (Sig.contents sigObj) = Some contents ∧
     parseCMSSignature forge contents = returns p7 ∧
     Pkcs7.certificates p7 ≫= head = None ∧
     r = finish forge engine (Pkcs7.signers p7 ≫= head) sigObj
           (push_error "No certificates found in signature." initial_result)) ∨
  (∃ contents p7 cert,
     or_null (Sig.contents sigObj) = Some contents ∧
     parseCMSSignature forge contents = returns p7 ∧
     Pkcs7.certificates p7 ≫= head = Some cert ∧
     r = push_error ("Unexpected error: " +:+ notAFunction engine "c.toAsn1")
           (certificate_flags engine now cert)).
Proof.
  intros r. subst r.
  destruct (or_null (Sig.contents sigObj)) as [contents|] eqn:Hc.
  2: { left. split; [done|]. by apply result_object_missing. }
  destruct (parseCMSSignature forge contents) as [e|p7] eqn:Hp.
  { right. left. exists contents, e. split; [done|]. split; [done|].
    by eapply result_object_undecoded. }
  destruct (Pkcs7.certificates p7 ≫= head) as [cert|] eqn:Hcert.
  - right. right. right. exists contents, p7, cert. do 3 (split; [done|]).
    by eapply result_object_certified.
  - right. right. left. exists contents, p7. do 3 (split; [done|]).
    by eapply result_object_uncertified.
Qed.

(** What the last steps keep and what they add. *)
Lemma finish_flags signerInfo sigObj r1 :
  let r := finish forge engine signerInfo sigObj r1 in
  signerName r = signerName r1 ∧ signerEmail r = signerEmail r1 ∧
  certificates r = certificates r1 ∧
  integrityValid r = integrityValid r1 ∧ certTrustValid r = certTrustValid r1 ∧
  isExpired r = isExpired r1 ∧ isSelfSigned r = isSelfSigned r1 ∧
  warnings r = warnings r1 ∧
  errors r =
    errors r1 ++
    match signing_time forge engine signerInfo with
    | inl e => ["Unexpected error: " +:+ e]
    | inr _ => []
    end.
Proof.
  unfold finish.
  destruct r1, (signing_time forge engine signerInfo) as [e|[t|]]; simpl;
    rewrite ?app_nil_r; done.
Qed.

(** Every verification leaves an error, and neither a chain, nor a verified
    integrity, nor a trusted certificate. *)
Lemma result_object_failed now sigObj pdfBytes :
  let r := result_object forge engine now sigObj pdfBytes in
  errors r ≠ [] ∧ certificates r = [] ∧ integrityValid r = false ∧
  certTrustValid r = false.
Proof.
  intros r. subst r.
  destruct (result_object_cases now sigObj pdfBytes)
    as [[_ ->]|[(c & e & _ & _ & ->)|[(c & p7 & _ & _ & _ & ->)|(c & p7 & cert & _ & _ & _ & ->)]]];
    try done.
  destruct (finish_flags (Pkcs7.signers p7 ≫= head) sigObj
              (push_error "No certificates found in signature." initial_result))
    as (_ & _ & -> & -> & -> & _ & _ & _ & ->).
  done.
Qed.

End VerifierFacts.

(** ** The verification of a document *)

Section DocumentFacts.

Context (forge : Forge) (engine : Engine).
Context (getDocument : list byte → Exc PdfJs.Document) (clock : nat → Z).

Implicit Types (pdfBytes : list byte) (file : File.t) (d : DocumentResult).

(** The loop pushes one entry per signature object, in order, and none of
    its iterations raises. *)
Lemma verify_each_spec sigFields pdfBytes sigObjects i signatures :
  verify_each forge engine clock sigFields pdfBytes i sigObjects signatures =
    returns (signatures ++
             imap (λ j, verified_field forge engine clock sigFields pdfBytes (i + j))
                  sigObjects)%list.
Proof.
  revert i signatures.
  induction sigObjects as [|sigObj rest IH]; intros i signatures; simpl.
  - by rewrite app_nil_r.
  - rewrite verifyPDFSignature_total. unfold returns at 1.
    rewrite IH, <- app_assoc. simpl. unfold verified_field at 2.
    rewrite Nat.add_0_r. do 3 f_equal.
    apply imap_ext. intros j x _. simpl. f_equal. lia.
Qed.

(** What the handler resolves the promise to: the signatures are those of
    the signature objects found in [pdfBytes] as it is when the text is
    decoded, after pdf.js has taken its buffer. *)
Lemma onload_resolved (data : list byte) d :
  onload forge engine getDocument clock data = resolve d →
  ∃ pdfDoc acroForm,
    getDocument data = returns pdfDoc ∧
    PdfJs.getFieldObjects pdfDoc = returns acroForm ∧
    numPages d = PdfJs.numPages pdfDoc ∧
    hasSignatures d = bool_decide (0 < length (signatures d)) ∧
    signatures d =
      (if bool_decide (length (sigFields acroForm) = 0) then []
       else
         let pdfBytes := PdfJs.transferred data in
         imap (verified_field forge engine clock (sigFields acroForm) pdfBytes)
              (sigObjects (decode_latin1 pdfBytes))) ∧
    message d =
      if bool_decide (length (sigFields acroForm) = 0)
      then Some "No digital signatures found in this document."%string
      else None.
Proof.
  unfold onload, resolve, reject. intros H.
  destruct (getDocument data) as [e|pdfDoc] eqn:Hdoc; [done|].
  destruct (PdfJs.getFieldObjects pdfDoc) as [e|acroForm] eqn:Hform; [done|].
  exists pdfDoc, acroForm. do 2 (split; [done|]).
  case_bool_decide.
  - inversion H; subst; simpl. done.
  - rewrite verify_each_spec in H. inversion H; subst; simpl. done.
Qed.

Lemma verifyPDFSignatures_resolved file d :
  verifyPDFSignatures forge engine getDocument clock file = resolve d →
  File.readable file = true ∧
  onload forge engine getDocument clock (File.bytes file) = resolve d.
Proof.
  unfold verifyPDFSignatures. by destruct (File.readable file).
Qed.

Lemma hasSignatures_iff file d :
  verifyPDFSignatures forge engine getDocument clock file = resolve d →
  hasSignatures d = true ↔ signatures d ≠ [].
Proof.
  intros [_ (? & ? & _ & _ & _ & Hhas & _)%onload_resolved]%verifyPDFSignatures_resolved.
  rewrite Hhas, bool_decide_eq_true. destruct (signatures d); simpl; split; (done || lia).
Qed.

(** No marker is found in an array without element: the output of a
    document has no signature. *)
Lemma verifyPDFSignatures_no_signature file d :
  verifyPDFSignatures forge engine getDocument clock file = resolve d →
  signatures d = [] ∧ hasSignatures d = false.
Proof.
  intros [_ (? & ? & _ & _ & _ & Hhas & Hsigs & _)%onload_resolved]%verifyPDFSignatures_resolved.
  assert (signatures d = []) as Hnil by (rewrite Hsigs; by case_bool_decide).
  by rewrite Hhas, Hnil.
Qed.

End DocumentFacts.

(** ** The status of a document *)

Lemma getOverallStatus_not_none (sig : VerificationResult) : getOverallStatus sig ≠ none.
Proof. unfold getOverallStatus. repeat case_match; done. Qed.





(** A field that is [invalid] or [tampered] makes the document [invalid],
    whatever the fields around it. *)
Lemma foldl_reduce_step_invalid sigs acc :
  acc = invalid ∨
  (∃ sig, sig ∈ sigs ∧
          (getOverallStatus (verResult sig) = invalid ∨
           getOverallStatus (verResult sig) = tampered)) →
  foldl reduce_step acc sigs = invalid.
Proof.
  revert acc. induction sigs as [|sig sigs IH]; intros acc H; simpl.
  - destruct H as [->|(? & []%elem_of_nil & _)]. done.
  - apply IH. destruct H as [->|(sig' & [->|Hin]%elem_of_cons & Hs)].
    + left. unfold reduce_step. repeat case_match; done.
    + left. unfold reduce_step. destruct Hs as [-> | ->]; done.
    + right. eauto.
Qed.

(** Without such a field, the document takes the status of the first field
    that is not [valid], and is [valid] when all are. *)
Lemma foldl_reduce_step_first sigs acc :
  (∀ sig, sig ∈ sigs → (severity (getOverallStatus (verResult sig)) ≤ 1)%nat) →
  foldl reduce_step acc sigs =
    if bool_decide (acc = valid)
    then default valid
           (head (filter (λ s, s ≠ valid)
                         ((λ sig, getOverallStatus (verResult sig)) <$> sigs)))
    else acc.
Proof.
  revert acc. induction sigs as [|sig sigs IH]; intros acc H; simpl.
  - by case_bool_decide.
  - rewrite IH by (intros; apply H; by right).
    assert (severity (getOverallStatus (verResult sig)) ≤ 1)%nat as Hs by (apply H; by left).
    pose proof (getOverallStatus_not_none (verResult sig)) as Hn.
    unfold reduce_step. rewrite filter_cons.
    destruct (getOverallStatus (verResult sig)) eqn:E; simpl in *; try lia; try done;
      destruct acc; simpl; try done; by case_decide.
Qed.



(** C10. In the output of a document, [hasSignatures] holds exactly when
    the list of signatures is not empty. When the form has signature fields
    and no byte-range marker is found in the text, the list is empty and
    [hasSignatures] is false. The text is that of [pdfBytes] as it is when
    the handler decodes it. *)
Theorem hasSignatures_iff_signatures
    forge engine getDocument clock (file : File.t) (d : DocumentResult) :
  verifyPDFSignatures forge engine getDocument clock file = resolve d →
  (hasSignatures d = true ↔ signatures d ≠ []) ∧
  (∀ pdfDoc acroForm,
     getDocument (File.bytes file) = returns pdfDoc →
     PdfJs.getFieldObjects pdfDoc = returns acroForm →
     sigFields acroForm ≠ [] →
     let pdfBytes := PdfJs.transferred (File.bytes file) in
     sigDataList (decode_latin1 pdfBytes) = [] →
     signatures d = [] ∧ hasSignatures d = false).
Proof.
  intros Hd. split; [by eapply hasSignatures_iff|].
  intros pdfDoc acroForm Hdoc Hform Hfields pdfBytes Hscan.
  destruct (verifyPDFSignatures_resolved _ _ _ _ _ _ Hd) as [_ Hload].
  destruct (onload_resolved _ _ _ _ _ _ Hload)
    as (pdfDoc' & acroForm' & Hdoc' & Hform' & _ & Hhas & Hsigs & _).
  rewrite Hdoc in Hdoc'. injection Hdoc' as <-.
  rewrite Hform in Hform'. injection Hform' as <-.
  assert (signatures d = []) as Hnil.
  { rewrite Hsigs. case_bool_decide; [done|].
    cbv zeta. fold pdfBytes. unfold sigObjects. by rewrite Hscan. }
  by rewrite Hhas, Hnil.
Qed.

Lemma hasSignatures_iff_signatures_witness :
  ∃ d,
    verifyPDFSignatures Fixture.forge Fixture.engine Fixture.getDocument (λ _, 3000%Z)
      (Fixture.file "form.pdf" Fixture.unsigned_form) = resolve d ∧
    length (sigFields (Some [ ("Approval", [ {| PdfJs.type := "signature" |} ]) ])) = 1 ∧
    (hasSignatures d = true ↔ signatures d ≠ []) ∧
    signatures d = [] ∧ hasSignatures d = false.
Proof.
  eexists. split; [vm_compute; reflexivity|]. split; [reflexivity|].
  destruct (hasSignatures_iff_signatures Fixture.forge Fixture.engine Fixture.getDocument
              (λ _, 3000%Z) (Fixture.file "form.pdf" Fixture.unsigned_form) _ eq_refl)
    as [Hiff Hscan].
  split; [exact Hiff|].
  eapply Hscan; [reflexivity | reflexivity | done | vm_compute; reflexivity].
Defined.

(** ** Byte ranges that exceed the document *)

Section RangeFacts.

Context (forge : Forge) (engine : Engine).

(** The last steps read the reason and the location of the signature
    object, and nothing else of it. *)
Lemma finish_ext signerInfo (sigObj sigObj' : Sig.Obj) r1 :
  Sig.reason sigObj = Sig.reason sigObj' →
  Sig.location sigObj = Sig.location sigObj' →
  finish forge engine signerInfo sigObj r1 = finish forge engine signerInfo sigObj' r1.
Proof. unfold finish. by intros -> ->. Qed.

(** The result of a verification depends on the contents, the reason and
    the location of the signature object: not on its byte range, and not on
    the document. *)
Lemma result_object_ignores_range now (sigObj sigObj' : Sig.Obj) (pdfBytes pdfBytes' : list byte) :
  Sig.contents sigObj = Sig.contents sigObj' →
  Sig.reason sigObj = Sig.reason sigObj' →
  Sig.location sigObj = Sig.location sigObj' →
  result_object forge engine now sigObj pdfBytes =
    result_object forge engine now sigObj' pdfBytes'.
Proof.
  intros Hc Hr Hl.
  destruct (result_object_cases forge engine now sigObj pdfBytes)
    as [[H1 ->]|[(c & e & H1 & H2 & ->)|[(c & p7 & H1 & H2 & H3 & ->)
        |(c & p7 & cert & H1 & H2 & H3 & ->)]]];
    rewrite Hc in H1; symmetry.
  - by apply result_object_missing.
  - by eapply result_object_undecoded.
  - erewrite result_object_uncertified by done. symmetry. by apply finish_ext.
  - by eapply result_object_certified.
Qed.

End RangeFacts.

(** A span that ends past the end of the document is cut there. *)
Lemma clamped_exceeding (pdfBytes : list byte) (span : N * N) :
  exceeds span pdfBytes →
  clamped pdfBytes span = drop (N.to_nat span.1) pdfBytes.
Proof.
  unfold exceeds, clamped. intros Hex.
  destruct (decide (span.1 ≤ N.of_nat (length pdfBytes))%N) as [Hin|Hout].
  - rewrite N.min_r, N.min_l by lia.
    apply take_ge. rewrite length_drop. lia.
  - rewrite !drop_ge by lia. by rewrite take_nil.
Qed.

(** C3, as the code has it. There is no bounds check. The extraction of a
    span that ends past the end of the document raises nothing: it returns
    the bytes from the offset of the span to the end of the document, fewer
    than the span asks for. And the verification of a signature object with
    such a span returns what it returns for the same object with any other
    byte range: nothing in the result is about the range. The objects whose
    two spans lie inside the document are among those, and each of them is
    another object than the one verified. *)
Theorem out_of_bounds_span_is_clamped
    forge engine (now : Z) (sigObj : Sig.Obj) (pdfBytes : list byte) (span : N * N) :
  exceeds span pdfBytes →
  (Sig.byteRange sigObj).1 = (Js.Finite span.1, Js.Finite span.2) ∨
  (Sig.byteRange sigObj).2 = (Js.Finite span.1, Js.Finite span.2) →
  extractByteRange pdfBytes [(Js.Num span.1, Js.Num span.2)] =
    drop (N.to_nat span.1) pdfBytes ∧
  (0 < span.2 →
   N.of_nat (length (extractByteRange pdfBytes [(Js.Num span.1, Js.Num span.2)])) < span.2)%N ∧
  (∀ inside : Sig.ByteRange,
     verifyPDFSignature forge engine now sigObj pdfBytes =
       verifyPDFSignature forge engine now (Sig.with_byteRange inside sigObj) pdfBytes) ∧
  (∀ a b c d : N,
     (a + b ≤ N.of_nat (length pdfBytes))%N → (c + d ≤ N.of_nat (length pdfBytes))%N →
     Sig.with_byteRange (Sig.range a b c d) sigObj ≠ sigObj).
Proof.
  intros Hex Hspan.
  assert (extractByteRange pdfBytes [(Js.Num span.1, Js.Num span.2)] =
          drop (N.to_nat span.1) pdfBytes) as Hcut.
  { pose proof (extractByteRange_clamps pdfBytes [span]) as H. simpl in H.
    rewrite app_nil_r in H. rewrite H. by apply clamped_exceeding. }
  split; [exact Hcut|]. split; [|split].
  - intros Hpos. rewrite Hcut, length_drop. unfold exceeds in Hex. lia.
  - intros inside. rewrite !verifyPDFSignature_total. apply (f_equal inr).
    by apply result_object_ignores_range.
  - intros a b c d Hab Hcd Heq. apply (f_equal Sig.byteRange) in Heq.
    simpl in Heq. rewrite <- Heq in Hspan. unfold exceeds in Hex.
    destruct span as [offset len]. simpl in *.
    destruct Hspan as [[= -> ->]|[= -> ->]]; lia.
Qed.

Lemma out_of_bounds_span_is_clamped_witness :
  let sigObj := {| Sig.byteRange := Sig.range 0 40 600000 300000;
                   Sig.contents := Some "3082";
                   Sig.reason := Some "approved";
                   Sig.location := Some "Paris" |} in
  exceeds (600000, 300000)%N Fixture.two_fields ∧
  extractByteRange Fixture.two_fields [(Js.Num 600000, Js.Num 300000)] = [] ∧
  verifyPDFSignature Fixture.forge Fixture.engine 3000 sigObj Fixture.two_fields =
    verifyPDFSignature Fixture.forge Fixture.engine 3000
      (Sig.with_byteRange (Sig.range 0 40 50 76) sigObj) Fixture.two_fields.
Proof.
  intros sigObj.
  assert (exceeds (600000, 300000)%N Fixture.two_fields) as Hex by (vm_compute; reflexivity).
  destruct (out_of_bounds_span_is_clamped Fixture.forge Fixture.engine 3000 sigObj
              Fixture.two_fields (600000, 300000)%N Hex (or_intror eq_refl))
    as (Hcut & _ & Hsame & _).
  split; [exact Hex|].
  split; [etrans; [exact Hcut | vm_compute; reflexivity] | apply Hsame].
Defined.

(** The claim C3 fails. The document [Fixture.two_fields] has 126 bytes, and
    the second span of its first signature object starts at byte 600000.
    [extractByteRange], asked for 300000 bytes from byte 100 of that
    document, returns its last 26 bytes and reports nothing. And whatever
    the libraries do, the verification of the object returns what it
    returns with spans inside the document. *)
Lemma out_of_bounds_span_not_reported :
  let sigObj := {| Sig.byteRange := Sig.range 0 40 600000 300000;
                   Sig.contents := Some "3082";
                   Sig.reason := Some "approved";
                   Sig.location := Some "Paris" |} in
  length Fixture.two_fields = 126 ∧
  sigObjects (decode_latin1 Fixture.two_fields) !! 0 = Some sigObj ∧
  exceeds (600000, 300000)%N Fixture.two_fields ∧
  exceeds (100, 300000)%N Fixture.two_fields ∧
  extractByteRange Fixture.two_fields [(Js.Num 100, Js.Num 300000)] =
    drop 100 Fixture.two_fields ∧
  length (extractByteRange Fixture.two_fields [(Js.Num 100, Js.Num 300000)]) = 26 ∧
  ∀ forge engine now,
    verifyPDFSignature forge engine now sigObj Fixture.two_fields =
      verifyPDFSignature forge engine now
        (Sig.with_byteRange (Sig.range 0 40 50 76) sigObj) Fixture.two_fields.
Proof.
  intros sigObj.
  do 6 (split; [vm_compute; reflexivity|]).
  intros forge engine now. rewrite !verifyPDFSignature_total. apply (f_equal inr).
  by apply result_object_ignores_range.
Qed.

(** ** The certificate of the signer *)

Section CertificateFacts.

Context (forge : Forge) (engine : Engine).

(** The result of a signature whose envelope decodes and holds a
    certificate: the flags are those of the certificate, the chain is
    empty and the trust flag is as it was created. *)
Lemma result_object_certificate now sigObj pdfBytes contents p7 cert :
  or_null (Sig.contents sigObj) = Some contents →
  parseCMSSignature forge contents = returns p7 →
  Pkcs7.certificates p7 ≫= head = Some cert →
  let r := result_object forge engine now sigObj pdfBytes in
  isExpired r = bool_decide (now > X509.notAfter (X509.validity cert))%Z ∧
  isSelfSigned r =
    bool_decide (X509.hash (X509.issuer cert) = X509.hash (X509.subject cert)) ∧
  certTrustValid r = false ∧
  integrityValid r = false ∧
  certificates r = [] ∧
  errors r = ["Unexpected error: " +:+ notAFunction engine "c.toAsn1"].
Proof.
  intros Hc Hp Hcert r. subst r.
  by erewrite result_object_certified.
Qed.

(** The inspection of a decoded certificate raises. *)
Lemma inspect_raises now cert :
  inspect forge engine now cert = raise (notAFunction engine "cert.toAsn1").
Proof. reflexivity. Qed.

(** What the handler of the inspector does with a text: it fails to decode
    it, or it decodes it and fails to inspect the certificate. *)
Lemma inspect_text_raises now text :
  inspect_text forge engine now text =
    match decode_certificate forge engine text with
    | inl err => raise err
    | inr _ => raise (notAFunction engine "cert.toAsn1")
    end.
Proof.
  unfold inspect_text. by destruct (decode_certificate forge engine text).
Qed.

(** The promise of the inspector is never resolved. *)
Lemma verifyCertificate_rejected now file :
  ∃ err, verifyCertificate forge engine now file = reject err.
Proof.
  unfold verifyCertificate. destruct (File.readable file); [|by eexists].
  rewrite inspect_text_raises.
  destruct (decode_certificate _ _ _); by eexists.
Qed.

Lemma verifyCertificate_not_resolved now file info :
  verifyCertificate forge engine now file ≠ resolve info.
Proof. destruct (verifyCertificate_rejected now file) as [err ->]. done. Qed.

End CertificateFacts.

(** C4 fails on every envelope that holds a certificate. The flags
    [isSelfSigned] and [isExpired] are those the claim describes, and no
    store nor network is consulted; but the assignment of [certTrustValid]
    is not reached, the chain listing that precedes it having raised: the
    flag keeps the [false] it was created with, also for a certificate
    that is neither self-signed nor expired. *)
Theorem certTrustValid_never_assigned
    forge engine (now : Z) (sigObj : Sig.Obj) (pdfBytes : list byte)
    (contents : string) (p7 : Pkcs7.Message) (cert : X509.Certificate) :
  or_null (Sig.contents sigObj) = Some contents →
  parseCMSSignature forge contents = returns p7 →
  Pkcs7.certificates p7 ≫= head = Some cert →
  ∃ r, verifyPDFSignature forge engine now sigObj pdfBytes = returns r ∧
       isSelfSigned r =
         bool_decide (X509.hash (X509.issuer cert) = X509.hash (X509.subject cert)) ∧
       isExpired r = bool_decide (now > X509.notAfter (X509.validity cert))%Z ∧
       certTrustValid r = false ∧
       errors r = ["Unexpected error: " +:+ notAFunction engine "c.toAsn1"] ∧
       (X509.hash (X509.issuer cert) ≠ X509.hash (X509.subject cert) →
        ¬ (now > X509.notAfter (X509.validity cert))%Z →
        certTrustValid r ≠ negb (isSelfSigned r) && negb (isExpired r)).
Proof.
  intros Hc Hp Hcert. eexists. split; [apply verifyPDFSignature_total|].
  destruct (result_object_certificate forge engine now sigObj pdfBytes _ _ _ Hc Hp Hcert)
    as (Hexp & Hself & Htrust & _ & _ & Herr).
  do 4 (split; [done|]).
  intros Hhash Hnow. rewrite Htrust, Hself, Hexp.
  by rewrite !bool_decide_eq_false_2.
Qed.

Lemma certTrustValid_never_assigned_witness :
  let sigObj := {| Sig.byteRange := Sig.range 0 40 600000 300000;
                   Sig.contents := Some "3082";
                   Sig.reason := Some "approved";
                   Sig.location := Some "Paris" |} in
  ∃ r, verifyPDFSignature Fixture.forge Fixture.engine 3000 sigObj Fixture.two_fields
       = returns r ∧
       isSelfSigned r = false ∧ isExpired r = false ∧
       certTrustValid r = false ∧
       certTrustValid r ≠ negb (isSelfSigned r) && negb (isExpired r) ∧
       errors r = ["Unexpected error: c.toAsn1 is not a function"].
Proof.
  intros sigObj.
  destruct (certTrustValid_never_assigned Fixture.forge Fixture.engine 3000 sigObj
              Fixture.two_fields "3082" Fixture.envelope Fixture.leaf
              eq_refl eq_refl eq_refl) as (r & Hr & Hself & Hexp & Htrust & Herr & Hdiff).
  exists r. split; [exact Hr|].
  split; [exact Hself|]. split; [exact Hexp|]. split; [exact Htrust|].
  split; [|exact Herr]. apply Hdiff; [done | vm_compute; discriminate].
Defined.

(** C6. Expiry is a strict comparison. The flag [isExpired] of a signature,
    that of each entry of its chain and that of an inspected certificate
    hold exactly when the current instant is after [notAfter]: not at
    [notAfter] itself, and one second (1000 ms) later they do. (The flag of
    the signature is the one a run shows: the chain of a result has no
    entry and the promise of the inspector is not resolved, see
    [result_object_certificate] and [verifyCertificate_rejected].) *)
Theorem expiry_is_strict
    forge engine (now : Z) (sigObj : Sig.Obj) (pdfBytes : list byte)
    (contents : string) (p7 : Pkcs7.Message) (cert : X509.Certificate) :
  or_null (Sig.contents sigObj) = Some contents →
  parseCMSSignature forge contents = returns p7 →
  Pkcs7.certificates p7 ≫= head = Some cert →
  let notAfter := X509.notAfter (X509.validity cert) in
  (∃ r, verifyPDFSignature forge engine now sigObj pdfBytes = returns r ∧
        (isExpired r = true ↔ (now > notAfter)%Z) ∧
        (now = notAfter → isExpired r = false) ∧
        (now = notAfter + 1000 → isExpired r = true)%Z ∧
        (∀ entry, entry ∈ certificates r →
           Chain.isExpired entry = true ↔ (now > Chain.validTo entry)%Z)) ∧
  (∀ file info,
     verifyCertificate forge engine now file = resolve info →
     (ci_isExpired info = true ↔ (now > ci_validTo info)%Z) ∧
     (now = ci_validTo info → ci_isExpired info = false) ∧
     (now = ci_validTo info + 1000 → ci_isExpired info = true)%Z).
Proof.
  intros Hc Hp Hcert notAfter. split.
  - eexists. split; [apply verifyPDFSignature_total|].
    destruct (result_object_certificate forge engine now sigObj pdfBytes _ _ _ Hc Hp Hcert)
      as (Hexp & _ & _ & _ & Hchain & _).
    rewrite Hexp, Hchain. fold notAfter.
    split; [apply bool_decide_eq_true|].
    split; [intros; apply bool_decide_eq_false; lia|].
    split; [intros; apply bool_decide_eq_true; lia|].
    intros entry Hin. by apply elem_of_nil in Hin.
  - intros file info Hres. by apply verifyCertificate_not_resolved in Hres.
Qed.

Lemma expiry_is_strict_witness :
  let sigObj := {| Sig.byteRange := Sig.range 0 40 600000 300000;
                   Sig.contents := Some "3082";
                   Sig.reason := Some "approved";
                   Sig.location := Some "Paris" |} in
  (∃ r, verifyPDFSignature Fixture.forge Fixture.engine 5000 sigObj Fixture.two_fields
        = returns r ∧ isExpired r = false) ∧
  (∃ r, verifyPDFSignature Fixture.forge Fixture.engine 6000 sigObj Fixture.two_fields
        = returns r ∧ isExpired r = true).
Proof.
  intros sigObj. split.
  - destruct (expiry_is_strict Fixture.forge Fixture.engine 5000 sigObj Fixture.two_fields
                "3082" Fixture.envelope Fixture.leaf eq_refl eq_refl eq_refl)
      as [(r & Hr & _ & Hat & _) _].
    exists r. split; [exact Hr | apply Hat; reflexivity].
  - destruct (expiry_is_strict Fixture.forge Fixture.engine 6000 sigObj Fixture.two_fields
                "3082" Fixture.envelope Fixture.leaf eq_refl eq_refl eq_refl)
      as [(r & Hr & _ & _ & Hlater & _) _].
    exists r. split; [exact Hr | apply Hlater; reflexivity].
Defined.

(** ** The pairing of the markers *)

(** C5 fails on every document. The locator pairs the matches by index,
    but it is run on the text of [pdfBytes] after pdf.js has taken its
    buffer: a text without character, in which no marker is found. No
    signature object is built, and no field is reported, whatever markers
    the file holds: not the field of a byte-range match that has contents,
    and not that of one that has none. *)
Theorem located_fields_not_reported
    forge engine getDocument clock (file : File.t) (d : DocumentResult) :
  verifyPDFSignatures forge engine getDocument clock file = resolve d →
  sigObjects (decode_latin1 (PdfJs.transferred (File.bytes file))) = [] ∧
  signatures d = [] ∧
  hasSignatures d = false ∧
  (∀ i sigObj,
     sigObjects (decode_latin1 (File.bytes file)) !! i = Some sigObj →
     signatures d !! i = None).
Proof.
  intros Hd.
  destruct (verifyPDFSignatures_no_signature _ _ _ _ _ _ Hd) as [Hnil Hhas].
  split; [reflexivity|]. split; [exact Hnil|]. split; [exact Hhas|].
  intros i sigObj _. by rewrite Hnil.
Qed.

Lemma located_fields_not_reported_witness :
  let file := Fixture.file "two.pdf" Fixture.two_fields in
  ∃ d,
    verifyPDFSignatures Fixture.forge Fixture.engine Fixture.getDocument (λ _, 3000%Z) file
      = resolve d ∧
    sigObjects (decode_latin1 (File.bytes file)) =
      [ {| Sig.byteRange := Sig.range 0 40 600000 300000;
           Sig.contents := Some "3082";
           Sig.reason := Some "approved";
           Sig.location := Some "Paris" |};
        {| Sig.byteRange := Sig.range 0 10 20 30;
           Sig.contents := None;
           Sig.reason := None;
           Sig.location := None |} ] ∧
    signatures d = [] ∧ hasSignatures d = false.
Proof.
  intros file. eexists. split; [vm_compute; reflexivity|].
  split; [vm_compute; reflexivity|].
  match goal with
  | |- signatures ?d = [] ∧ _ =>
      destruct (located_fields_not_reported Fixture.forge Fixture.engine Fixture.getDocument
                  (λ _, 3000%Z) file d eq_refl) as (_ & Hnil & Hhas & _)
  end.
  split; [exact Hnil | exact Hhas].
Defined.

(** ** Fingerprints *)

(** C8 fails on every certificate. Both the chain listing and the
    inspector ask the certificate for its ASN.1 object by calling
    [toAsn1], which a certificate object does not have: the call raises
    before anything is encoded or digested. The chain of a signature whose
    envelope holds a certificate stays empty, the promise of the inspector
    is never resolved, and a file that decodes is rejected for that call. *)
Theorem fingerprint_never_computed forge engine (now : Z) :
  (∀ sigObj pdfBytes contents p7 cert,
     or_null (Sig.contents sigObj) = Some contents →
     parseCMSSignature forge contents = returns p7 →
     Pkcs7.certificates p7 ≫= head = Some cert →
     ∃ r, verifyPDFSignature forge engine now sigObj pdfBytes = returns r ∧
          certificates r = [] ∧
          errors r = ["Unexpected error: " +:+ notAFunction engine "c.toAsn1"]) ∧
  (∀ file info, verifyCertificate forge engine now file ≠ resolve info) ∧
  (∀ file cert,
     File.readable file = true →
     decode_certificate forge engine (utf8Decode engine (File.bytes file)) = returns cert →
     verifyCertificate forge engine now file =
       reject (Rejection.Error
                 ("Failed to parse certificate: " +:+ notAFunction engine "cert.toAsn1"))).
Proof.
  split; [|split].
  - intros sigObj pdfBytes contents p7 cert Hc Hp Hcert.
    eexists. split; [apply verifyPDFSignature_total|].
    destruct (result_object_certificate forge engine now sigObj pdfBytes _ _ _ Hc Hp Hcert)
      as (_ & _ & _ & _ & Hchain & Herr).
    done.
  - intros file info. apply verifyCertificate_not_resolved.
  - intros file cert Hread Hdec. unfold verifyCertificate.
    by rewrite Hread, inspect_text_raises, Hdec.
Qed.

(** ** Totality of the verifier *)

(** Whatever the block of the outer [try] does, the [catch] turns an error
    it raises into a message of [errors], keeps the assignments made before
    the error, and raises nothing itself. *)
Lemma outer_catch_captures (block : M unit) (r : VerificationResult) :
  (∀ msg, (try_catch block unexpected_error r).1 ≠ Throw msg) ∧
  (∀ msg r', block r = (Throw msg, r') →
     try_catch block unexpected_error r =
       (Normal tt, push_error ("Unexpected error: " +:+ msg) r')).
Proof.
  unfold try_catch. split.
  - intros msg. destruct (block r) as [[[]| |m] r']; done.
  - by intros msg r' ->.
Qed.

(** C9. [verifyPDFSignature] always returns a result and raises nothing:
    its body is a [try] whose handler catches whatever the block raises,
    pushes the message into [errors] and raises nothing, so no error leaves
    the body, from whatever state of [result]. The block of the integrity
    check has a handler of its own, which records the error of the check and
    raises nothing, from whatever state. And each failure of a step of a
    verification leaves its message in [errors]: a missing envelope; an
    envelope that does not decode; the error raised in the analysis of the
    certificate, by its chain listing; and, for an envelope without
    certificate, the absence of a certificate, followed by the error of the
    extraction of the signing time when it raises. *)
Theorem verifyPDFSignature_never_throws
    forge engine (now : Z) (sigObj : Sig.Obj) (pdfBytes : list byte) :
  (∀ (block : M unit) r0,
     (∀ msg, (try_catch block unexpected_error r0).1 ≠ Throw msg) ∧
     (∀ msg r', block r0 = (Throw msg, r') →
        errors (try_catch block unexpected_error r0).2 =
          errors r' ++ ["Unexpected error: " +:+ msg])) ∧
  (∀ r0 msg, (verifyPDFSignature_body forge engine now sigObj pdfBytes r0).1 ≠ Throw msg) ∧
  (∀ p7 signerInfo signedBytes r0,
     ∃ r', check_integrity engine p7 signerInfo signedBytes r0 = (Normal tt, r') ∧
           ∀ e, digestVerified engine p7 signerInfo signedBytes = raise e →
                integrityValid r' = false ∧
                errors r' = errors r0 ++ ["Integrity verification failed: " +:+ e]) ∧
  ∃ r,
    verifyPDFSignature forge engine now sigObj pdfBytes = returns r ∧
    (or_null (Sig.contents sigObj) = None →
     errors r = ["Missing ByteRange or Contents in signature dictionary."]) ∧
    (∀ contents e,
       or_null (Sig.contents sigObj) = Some contents →
       parseCMSSignature forge contents = raise e →
       errors r = ["Failed to parse signature CMS data: " +:+ e]) ∧
    (∀ contents p7,
       or_null (Sig.contents sigObj) = Some contents →
       parseCMSSignature forge contents = returns p7 →
       (∀ cert,
          Pkcs7.certificates p7 ≫= head = Some cert →
          errors r = ["Unexpected error: " +:+ notAFunction engine "c.toAsn1"]) ∧
       (Pkcs7.certificates p7 ≫= head = None →
        errors r =
          "No certificates found in signature." ::
          match signing_time forge engine (Pkcs7.signers p7 ≫= head) with
          | inl e => ["Unexpected error: " +:+ e]
          | inr _ => []
          end)).
Proof.
  split.
  { intros block r0. destruct (outer_catch_captures block r0) as [Hno Hcaught].
    split; [exact Hno|]. intros msg r' Hblock.
    rewrite (Hcaught msg r' Hblock). by destruct r'. }
  split; [intros; apply verifyPDFSignature_body_no_throw|].
  split.
  { intros p7 signerInfo signedBytes r0. eexists.
    split; [apply check_integrity_spec|].
    intros e ->. unfold raise. by destruct r0. }
  eexists. split; [apply verifyPDFSignature_total|].
  split; [intros H; by rewrite result_object_missing|].
  split; [intros contents e Hc Hp; by erewrite result_object_undecoded|].
  intros contents p7 Hc Hp. split.
  - intros cert Hcert. by erewrite result_object_certified.
  - intros Hcert. erewrite result_object_uncertified by done.
    destruct (finish_flags forge engine (Pkcs7.signers p7 ≫= head) sigObj
                (push_error "No certificates found in signature." initial_result))
      as (_ & _ & _ & _ & _ & _ & _ & _ & ->).
    reflexivity.
Qed.

Lemma verifyPDFSignature_never_throws_witness :
  let sigObj := {| Sig.byteRange := Sig.range 0 10 20 30;
                   Sig.contents := Some "00";
                   Sig.reason := None;
                   Sig.location := None |} in
  parseCMSSignature Fixture.forge "00" = raise "Too few bytes to parse DER." ∧
  ∃ r, verifyPDFSignature Fixture.forge Fixture.engine 3000 sigObj Fixture.two_fields
       = returns r ∧
       errors r = ["Failed to parse signature CMS data: Too few bytes to parse DER."].
Proof.
  intros sigObj. split; [reflexivity|].
  destruct (verifyPDFSignature_never_throws Fixture.forge Fixture.engine 3000 sigObj
              Fixture.two_fields) as (_ & _ & _ & r & Hr & _ & Hparse & _).
  exists r. split; [exact Hr|].
  exact (Hparse "00" "Too few bytes to parse DER." eq_refl eq_refl).
Defined.

(** ** The certificate inspector *)

(** When the first attempt fails, the second one decodes a text of
    [ToIndex(text)] characters of code 0: of the file it keeps that number
    and nothing else. *)
Lemma decode_certificate_second_attempt forge engine (text : string) (e : string) :
  certificateFromPem forge text = raise e →
  decode_certificate forge engine text =
    match toIndex engine text with
    | inl err => raise err
    | inr len => certificateFromDer forge (nul_string len)
    end.
Proof. intros H. unfold decode_certificate. by rewrite H. Qed.

(** Two files that are not in the text encoding and whose texts are not
    numeric literals get the same answer, whatever their contents. *)
Lemma verifyCertificate_ignores_binary_contents forge engine (now : Z)
    (file1 file2 : File.t) (e1 e2 : string) :
  File.readable file1 = true → File.readable file2 = true →
  certificateFromPem forge (utf8Decode engine (File.bytes file1)) = raise e1 →
  certificateFromPem forge (utf8Decode engine (File.bytes file2)) = raise e2 →
  toIndex engine (utf8Decode engine (File.bytes file1)) =
    toIndex engine (utf8Decode engine (File.bytes file2)) →
  verifyCertificate forge engine now file1 = verifyCertificate forge engine now file2.
Proof.
  intros R1 R2 H1 H2 Hidx. unfold verifyCertificate, inspect_text.
  by rewrite R1, R2, (decode_certificate_second_attempt _ _ _ _ H1),
             (decode_certificate_second_attempt _ _ _ _ H2), Hidx.
Qed.

(** What holds of the two attempts: the text decoder is tried first and,
    when it succeeds, decides alone; a failure of both rejects the file with
    the message of the second. (A certificate, once decoded, is inspected,
    and the inspection raises: see [inspect_raises].) *)
Lemma verifyCertificate_attempts forge engine (now : Z) (file : File.t) :
  File.readable file = true →
  let text := utf8Decode engine (File.bytes file) in
  (∀ cert, certificateFromPem forge text = returns cert →
           decode_certificate forge engine text = returns cert) ∧
  (∀ e, decode_certificate forge engine text = raise e →
        verifyCertificate forge engine now file =
          reject (Rejection.Error ("Failed to parse certificate: " +:+ e))).
Proof.
  intros Hread text. split.
  - intros cert H. unfold decode_certificate. by rewrite H.
  - intros e He. unfold verifyCertificate. rewrite Hread, inspect_text_raises.
    fold text. by rewrite He.
Qed.

(** C7 fails on a file in the binary encoding. [Fixture.leaf_der] holds the
    encoded bytes of a certificate: the binary decoder accepts them and the
    text decoder does not. The inspector rejects the file: the second
    attempt is made on an empty text, not on the file. *)
Theorem verifyCertificate_rejects_binary_file :
  utf8Decode Fixture.engine (Fixture.bytes_of Fixture.leaf_der) = Fixture.leaf_der ∧
  certificateFromDer Fixture.forge Fixture.leaf_der = returns Fixture.leaf ∧
  certificateFromPem Fixture.forge Fixture.leaf_der = raise "Invalid PEM formatted message." ∧
  toIndex Fixture.engine Fixture.leaf_der = returns 0%N ∧
  decode_certificate Fixture.forge Fixture.engine Fixture.leaf_der =
    certificateFromDer Fixture.forge "" ∧
  verifyCertificate Fixture.forge Fixture.engine 3000
    (Fixture.file "leaf.cer" (Fixture.bytes_of Fixture.leaf_der)) =
    reject (Rejection.Error "Failed to parse certificate: Too few bytes to parse DER.").
Proof. repeat split; vm_compute; reflexivity. Qed.

(** * Further properties of the engine *)

(** ** Byte-range extraction *)

Lemma clamped_inside (pdfBytes : list byte) (span : N * N) :
  (span.1 + span.2 ≤ N.of_nat (length pdfBytes))%N →
  clamped pdfBytes span = take (N.to_nat span.2) (drop (N.to_nat span.1) pdfBytes).
Proof.
  intros H. unfold clamped.
  rewrite !N.min_l by lia. do 2 f_equal. lia.
Qed.

(** X1. Spans that lie inside the document are extracted exactly: the
    result is the bytes of the first span, then those of the second, and so
    on, with nothing between them, and it has as many bytes as the spans ask
    for. *)
Theorem extractByteRange_inside (pdfBytes : list byte) (spans : list (N * N)) :
  Forall (λ sp : N * N, sp.1 + sp.2 ≤ N.of_nat (length pdfBytes))%N spans →
  extractByteRange pdfBytes ((λ sp : N * N, (Js.Num sp.1, Js.Num sp.2)) <$> spans) =
    concat ((λ sp : N * N, take (N.to_nat sp.2) (drop (N.to_nat sp.1) pdfBytes)) <$> spans) ∧
  length (extractByteRange pdfBytes ((λ sp : N * N, (Js.Num sp.1, Js.Num sp.2)) <$> spans)) =
    foldr (λ sp n, N.to_nat sp.2 + n) 0 spans.
Proof.
  intros Hin. rewrite extractByteRange_clamps.
  assert (clamped pdfBytes <$> spans =
          (λ sp : N * N, take (N.to_nat sp.2) (drop (N.to_nat sp.1) pdfBytes)) <$> spans) as ->.
  { apply Forall_fmap_ext_1. eapply Forall_impl; [exact Hin|].
    intros sp Hsp. by apply clamped_inside. }
  split; [done|].
  induction spans as [|sp spans IH]; [done|].
  apply Forall_cons in Hin as [Hsp Hin].
  rewrite fmap_cons. cbn [concat foldr].
  rewrite length_app, (IH Hin), length_take, length_drop. lia.
Qed.

Lemma extractByteRange_inside_witness :
  extractByteRange Fixture.two_fields [(Js.Num 0, Js.Num 9); (Js.Num 121, Js.Num 5)] =
    Fixture.bytes_of "%PDF-1.7 %%EOF".
Proof.
  destruct (extractByteRange_inside Fixture.two_fields [(0, 9); (121, 5)]%N) as [-> _].
  - repeat constructor; vm_compute; discriminate.
  - vm_compute. reflexivity.
Defined.

(** X2. The two spans of a signature, one from the start of the document
    to byte [a] and one from byte [b] to its end, extract the document
    without the bytes [a] to [b]; when [a = b] they give the document
    back. *)
Theorem extractByteRange_around_hole (pdfBytes : list byte) (a b : N) :
  (a ≤ b)%N → (b ≤ N.of_nat (length pdfBytes))%N →
  extractByteRange pdfBytes
    [(Js.Num 0, Js.Num a); (Js.Num b, Js.Num (N.of_nat (length pdfBytes) - b))] =
    take (N.to_nat a) pdfBytes ++ drop (N.to_nat b) pdfBytes ∧
  length (extractByteRange pdfBytes
            [(Js.Num 0, Js.Num a); (Js.Num b, Js.Num (N.of_nat (length pdfBytes) - b))]) =
    length pdfBytes - N.to_nat (b - a) ∧
  (a = b →
   extractByteRange pdfBytes
     [(Js.Num 0, Js.Num a); (Js.Num b, Js.Num (N.of_nat (length pdfBytes) - b))] = pdfBytes).
Proof.
  intros Hab Hb.
  destruct (extractByteRange_inside pdfBytes
              [(0, a); (b, N.of_nat (length pdfBytes) - b)]%N) as [Heq _].
  { repeat constructor; simpl; lia. }
  simpl in Heq. rewrite Heq, app_nil_r. simpl.
  rewrite (take_ge (drop (N.to_nat b) pdfBytes)) by (rewrite length_drop; lia).
  split; [done|]. split.
  - rewrite length_app, length_take, !length_drop. lia.
  - intros ->. apply take_drop.
Qed.

Lemma extractByteRange_around_hole_witness :
  extractByteRange Fixture.unsigned_form [(Js.Num 0, Js.Num 9); (Js.Num 25, Js.Num 5)] =
    Fixture.bytes_of "%PDF-1.7 %%EOF".
Proof.
  destruct (extractByteRange_around_hole Fixture.unsigned_form 9 25) as [H _].
  - vm_compute; discriminate.
  - vm_compute; discriminate.
  - exact H.
Defined.

Lemma slice_sublist (pdfBytes : list byte) (start end_ : Js.value) :
  slice pdfBytes start end_ `sublist_of` pdfBytes.
Proof.
  unfold slice. etrans; [apply sublist_take|apply sublist_drop].
Qed.

(** X3. Whatever the spans, and whatever the values given as offsets and
    lengths, the extraction raises nothing and invents no byte: every byte
    of the result is a byte of the document, each span contributes at most
    the bytes it asks for and at most the document, and no span at all gives
    the empty array. *)
Theorem extractByteRange_never_invents (pdfBytes : list byte)
    (byteRanges : list (Js.value * Js.value)) :
  (∀ byte, byte ∈ extractByteRange pdfBytes byteRanges → byte ∈ pdfBytes) ∧
  length (extractByteRange pdfBytes byteRanges) ≤ length byteRanges * length pdfBytes ∧
  (∀ spans : list (N * N),
     byteRanges = (λ sp : N * N, (Js.Num sp.1, Js.Num sp.2)) <$> spans →
     length (extractByteRange pdfBytes byteRanges) ≤ foldr (λ sp n, N.to_nat sp.2 + n) 0 spans) ∧
  extractByteRange pdfBytes [] = [].
Proof.
  rewrite extractByteRange_concat. split; [|split; [|split]].
  - intros byte Hbyte. induction byteRanges as [|r rs IH]; simpl in Hbyte.
    + by apply elem_of_nil in Hbyte.
    + apply elem_of_app in Hbyte as [Hbyte|Hbyte]; [|by apply IH].
      eapply elem_of_sublist; [exact Hbyte | apply slice_sublist].
  - induction byteRanges as [|r rs IH]; [simpl; lia|].
    rewrite fmap_cons. cbn [concat length]. rewrite length_app.
    pose proof (sublist_length _ _ (slice_sublist pdfBytes r.1 (Js.add r.1 r.2))).
    lia.
  - intros spans ->. rewrite <- list_fmap_compose.
    induction spans as [|sp spans IH]; [simpl; lia|].
    rewrite fmap_cons. cbn [concat foldr compose fst snd]. rewrite length_app.
    pose proof (clamped_length pdfBytes sp) as [_ H].
    rewrite slice_span. lia.
  - reflexivity.
Qed.

(** ** The result of a verification, case by case *)

Section ResultFacts.

Context (forge : Forge) (engine : Engine).

Implicit Types (r : VerificationResult) (sigObj : Sig.Obj) (pdfBytes : list byte).

Lemma finish_display signerInfo sigObj r1 :
  let r := finish forge engine signerInfo sigObj r1 in
  signerName r = signerName r1 ∧ signerEmail r = signerEmail r1 ∧
  warnings r = warnings r1 ∧
  signingTime r =
    match signing_time forge engine signerInfo with
    | inr (Some t) => Some t
    | _ => signingTime r1
    end ∧
  reason r =
    match signing_time forge engine signerInfo with
    | inl _ => reason r1
    | inr _ => or_null (Sig.reason sigObj)
    end ∧
  location r =
    match signing_time forge engine signerInfo with
    | inl _ => location r1
    | inr _ => or_null (Sig.location sigObj)
    end.
Proof.
  unfold finish. destruct r1, (signing_time forge engine signerInfo) as [e|[t|]]; done.
Qed.

End ResultFacts.

(** The statuses in terms of the fields of a result. *)
Lemma getOverallStatus_cases (sig : VerificationResult) :
  (getOverallStatus sig = invalid ↔ errors sig ≠ []) ∧
  (getOverallStatus sig = expired ↔ errors sig = [] ∧ isExpired sig = true) ∧
  (getOverallStatus sig = self_signed ↔
   errors sig = [] ∧ isExpired sig = false ∧ isSelfSigned sig = true) ∧
  (getOverallStatus sig = tampered ↔
   errors sig = [] ∧ isExpired sig = false ∧ isSelfSigned sig = false ∧
   integrityValid sig = false) ∧
  (getOverallStatus sig = untrusted ↔
   errors sig = [] ∧ isExpired sig = false ∧ isSelfSigned sig = false ∧
   integrityValid sig = true ∧ certTrustValid sig = false) ∧
  (getOverallStatus sig = valid ↔
   errors sig = [] ∧ isExpired sig = false ∧ isSelfSigned sig = false ∧
   integrityValid sig = true ∧ certTrustValid sig = true).
Proof.
  unfold getOverallStatus.
  destruct (errors sig) as [|e es]; simpl;
    destruct (isExpired sig), (isSelfSigned sig), (integrityValid sig),
      (certTrustValid sig); simpl; repeat split; intros; destruct_and?; done.
Qed.

(** X4. The result of the verification of a field does not depend on the
    bytes of the document nor on the byte range of the field: two
    verifications at the same instant with the same envelope, reason and
    location return the same result, whatever the two documents and the two
    byte ranges. (The signed bytes the verifier extracts are always empty,
    see [signed_bytes_of_signature_object].) *)
Theorem verifyPDFSignature_ignores_document
    forge engine (now : Z) (byteRange1 byteRange2 : Sig.ByteRange)
    (contents reason location : option string) (pdfBytes1 pdfBytes2 : list byte) :
  verifyPDFSignature forge engine now
    {| Sig.byteRange := byteRange1; Sig.contents := contents;
       Sig.reason := reason; Sig.location := location |} pdfBytes1 =
  verifyPDFSignature forge engine now
    {| Sig.byteRange := byteRange2; Sig.contents := contents;
       Sig.reason := reason; Sig.location := location |} pdfBytes2.
Proof.
  rewrite !verifyPDFSignature_total. apply (f_equal inr).
  by apply result_object_ignores_range.
Qed.

(** X5. No verification ends with the status [untrusted]; and whenever the
    trust flag of a result is true, the certificate is neither expired nor
    self-signed and the chain is not empty. (The flag is true in no result:
    its assignment is not reached.) *)
Theorem verification_never_untrusted
    forge engine (now : Z) (sigObj : Sig.Obj) (pdfBytes : list byte) :
  ∃ r, verifyPDFSignature forge engine now sigObj pdfBytes = returns r ∧
       getOverallStatus r ≠ untrusted ∧
       (certTrustValid r = true →
        isExpired r = false ∧ isSelfSigned r = false ∧ certificates r ≠ []).
Proof.
  eexists. split; [apply verifyPDFSignature_total|].
  destruct (result_object_failed forge engine now sigObj pdfBytes)
    as (Herr & _ & _ & Htrust).
  split.
  - intros Hu. apply getOverallStatus_cases in Hu as [Hu _]. done.
  - rewrite Htrust. done.
Qed.

(** X6. Every verification of a field ends with an error and the status
    [invalid]: the envelope is missing, or it does not decode, or it holds no
    certificate, or it holds one and the chain listing raises. No result has
    a verified integrity, a trusted certificate or a chain. *)
Theorem verification_always_invalid
    forge engine (now : Z) (sigObj : Sig.Obj) (pdfBytes : list byte) :
  ∃ r, verifyPDFSignature forge engine now sigObj pdfBytes = returns r ∧
       errors r ≠ [] ∧
       getOverallStatus r = invalid ∧
       integrityValid r = false ∧ certTrustValid r = false ∧ certificates r = [] ∧
       (or_null (Sig.contents sigObj) = None ∨
        (∃ contents e, or_null (Sig.contents sigObj) = Some contents ∧
                       parseCMSSignature forge contents = raise e) ∨
        (∃ contents p7, or_null (Sig.contents sigObj) = Some contents ∧
                        parseCMSSignature forge contents = returns p7 ∧
                        Pkcs7.certificates p7 ≫= head = None ∧
                        "No certificates found in signature." ∈ errors r) ∨
        (∃ contents p7 cert, or_null (Sig.contents sigObj) = Some contents ∧
                             parseCMSSignature forge contents = returns p7 ∧
                             Pkcs7.certificates p7 ≫= head = Some cert ∧
                             errors r = ["Unexpected error: " +:+
                                         notAFunction engine "c.toAsn1"])).
Proof.
  eexists. split; [apply verifyPDFSignature_total|].
  destruct (result_object_failed forge engine now sigObj pdfBytes)
    as (Herr & Hchain & Hint & Htrust).
  split; [done|]. split; [by apply getOverallStatus_cases|].
  do 3 (split; [done|]).
  destruct (result_object_cases forge engine now sigObj pdfBytes)
    as [[H1 _]|[(c & e & H1 & H2 & _)|[(c & p7 & H1 & H2 & H3 & ->)
        |(c & p7 & cert & H1 & H2 & H3 & ->)]]].
  - by left.
  - right. left. eauto.
  - right. right. left. exists c, p7. do 3 (split; [done|]).
    destruct (finish_flags forge engine (Pkcs7.signers p7 ≫= head) sigObj
                (push_error "No certificates found in signature." initial_result))
      as (_ & _ & _ & _ & _ & _ & _ & _ & ->).
    apply elem_of_app. left. by left.
  - right. right. right. exists c, p7, cert. done.
Qed.

Section CertifiedFacts.

Context (forge : Forge) (engine : Engine).

(** The result of an envelope with a certificate is a function of its first
    certificate, of the instant and of the engine. *)
Lemma result_object_of_certificate forge' now sigObj sigObj' pdfBytes pdfBytes'
    contents contents' p7 p7' cert :
  or_null (Sig.contents sigObj) = Some contents →
  parseCMSSignature forge contents = returns p7 →
  Pkcs7.certificates p7 ≫= head = Some cert →
  or_null (Sig.contents sigObj') = Some contents' →
  parseCMSSignature forge' contents' = returns p7' →
  Pkcs7.certificates p7' ≫= head = Some cert →
  result_object forge engine now sigObj pdfBytes =
    result_object forge' engine now sigObj' pdfBytes'.
Proof.
  intros. by erewrite !result_object_certified.
Qed.

End CertifiedFacts.

(** X7. A verification stops at the certificate. When the envelope holds
    one, the only error is that of the chain listing, and nothing of what
    follows the listing is done: the integrity is not checked, the trust flag
    is not assigned, and the signing time, the reason and the location stay
    [null], whatever the signature object holds. The result is the same for
    every envelope with that first certificate, whatever its other
    certificates, its signer and its own verification would give. *)
Theorem certificate_stops_verification
    forge engine (now : Z) (sigObj : Sig.Obj) (pdfBytes : list byte)
    (contents : string) (p7 : Pkcs7.Message) (cert : X509.Certificate) :
  or_null (Sig.contents sigObj) = Some contents →
  parseCMSSignature forge contents = returns p7 →
  Pkcs7.certificates p7 ≫= head = Some cert →
  ∃ r, verifyPDFSignature forge engine now sigObj pdfBytes = returns r ∧
       errors r = ["Unexpected error: " +:+ notAFunction engine "c.toAsn1"] ∧
       integrityValid r = false ∧ certTrustValid r = false ∧ certificates r = [] ∧
       signingTime r = None ∧ reason r = None ∧ location r = None ∧
       (∀ forge' sigObj' pdfBytes' contents' p7',
          or_null (Sig.contents sigObj') = Some contents' →
          parseCMSSignature forge' contents' = returns p7' →
          Pkcs7.certificates p7' ≫= head = Some cert →
          verifyPDFSignature forge' engine now sigObj' pdfBytes' = returns r).
Proof.
  intros Hc Hp Hcert. eexists. split; [apply verifyPDFSignature_total|].
  split; [|split; [|split; [|split; [|split; [|split; [|split]]]]]];
    try (by erewrite result_object_certified).
  intros forge' sigObj' pdfBytes' contents' p7' Hc' Hp' Hcert'.
  rewrite verifyPDFSignature_total. apply (f_equal inr).
  by eapply result_object_of_certificate.
Qed.

Lemma certificate_stops_verification_witness :
  let sigObj := {| Sig.byteRange := Sig.range 0 40 600000 300000;
                   Sig.contents := Some "3082";
                   Sig.reason := Some "approved";
                   Sig.location := Some "Paris" |} in
  ∃ r, verifyPDFSignature Fixture.forge Fixture.engine 3000 sigObj Fixture.two_fields
       = returns r ∧
       errors r = ["Unexpected error: c.toAsn1 is not a function"] ∧
       integrityValid r = false ∧ reason r = None ∧ location r = None.
Proof.
  intros sigObj.
  destruct (certificate_stops_verification Fixture.forge Fixture.engine 3000 sigObj
              Fixture.two_fields "3082" Fixture.envelope Fixture.leaf
              eq_refl eq_refl eq_refl)
    as (r & Hr & Herr & Hint & _ & _ & _ & Hreason & Hloc & _).
  exists r. split; [exact Hr|]. split; [exact Herr|]. split; [exact Hint|].
  split; [exact Hreason | exact Hloc].
Defined.

(** X8. An expired or self-signed certificate sets its flag and leaves its
    warning, and only those warnings are left; but the status of the result
    is [invalid], neither [expired] nor [self_signed]: the error of the chain
    listing comes first in the classifier. *)
Theorem trust_flags_masked_by_error
    forge engine (now : Z) (sigObj : Sig.Obj) (pdfBytes : list byte)
    (contents : string) (p7 : Pkcs7.Message) (cert : X509.Certificate) :
  or_null (Sig.contents sigObj) = Some contents →
  parseCMSSignature forge contents = returns p7 →
  Pkcs7.certificates p7 ≫= head = Some cert →
  let expired := bool_decide (now > X509.notAfter (X509.validity cert))%Z in
  let selfSigned :=
    bool_decide (X509.hash (X509.issuer cert) = X509.hash (X509.subject cert)) in
  ∃ r, verifyPDFSignature forge engine now sigObj pdfBytes = returns r ∧
       isExpired r = expired ∧ isSelfSigned r = selfSigned ∧
       warnings r =
         (if expired
          then ["Certificate expired on " +:+
                toLocaleDateString engine (X509.notAfter (X509.validity cert))]
          else []) ++
         (if selfSigned then ["Certificate is self-signed and may not be trusted."] else []) ∧
       getOverallStatus r = invalid.
Proof.
  intros Hc Hp Hcert expired selfSigned. eexists.
  split; [apply verifyPDFSignature_total|].
  erewrite result_object_certified by done.
  split; [done|]. split; [done|]. split; [done|].
  by apply getOverallStatus_cases.
Qed.

Lemma trust_flags_masked_by_error_witness :
  let sigObj := {| Sig.byteRange := Sig.range 0 40 600000 300000;
                   Sig.contents := Some "3082";
                   Sig.reason := Some "approved";
                   Sig.location := Some "Paris" |} in
  ∃ r, verifyPDFSignature Fixture.forge Fixture.engine 7000 sigObj Fixture.two_fields
       = returns r ∧
       isExpired r = true ∧
       warnings r = ["Certificate expired on 1/1/1970"] ∧
       getOverallStatus r = invalid.
Proof.
  intros sigObj.
  destruct (trust_flags_masked_by_error Fixture.forge Fixture.engine 7000 sigObj
              Fixture.two_fields "3082" Fixture.envelope Fixture.leaf
              eq_refl eq_refl eq_refl) as (r & Hr & Hexp & _ & Hwarn & Hstatus).
  exists r. split; [exact Hr|]. split; [exact Hexp|]. split; [exact Hwarn | exact Hstatus].
Defined.

(** X9. Trust problems are reported as warnings. A result has at most two
    warnings; it has the self-signed warning when [isSelfSigned] is set, a
    warning that starts with [Certificate expired on] when [isExpired] is
    set, and no warning when neither flag is set. *)
Theorem verification_warnings
    forge engine (now : Z) (sigObj : Sig.Obj) (pdfBytes : list byte) :
  ∃ r, verifyPDFSignature forge engine now sigObj pdfBytes = returns r ∧
       length (warnings r) ≤ 2 ∧
       (isExpired r = false → isSelfSigned r = false → warnings r = []) ∧
       (isSelfSigned r = true →
        "Certificate is self-signed and may not be trusted." ∈ warnings r) ∧
       (isExpired r = true → ∃ date, "Certificate expired on " +:+ date ∈ warnings r).
Proof.
  eexists. split; [apply verifyPDFSignature_total|].
  destruct (result_object_cases forge engine now sigObj pdfBytes)
    as [[H1 ->]|[(c & e & H1 & H2 & ->)|[(c & p7 & H1 & H2 & H3 & ->)
        |(c & p7 & cert & H1 & H2 & H3 & ->)]]];
    try (simpl; repeat split; (lia || done)).
  - destruct (finish_flags forge engine (Pkcs7.signers p7 ≫= head) sigObj
                (push_error "No certificates found in signature." initial_result))
      as (_ & _ & _ & _ & _ & -> & -> & -> & _).
    simpl. repeat split; (lia || done).
  - simpl. repeat case_bool_decide; simpl; repeat split; try (lia || done); intros.
    all: try (eexists; apply elem_of_cons; by left).
    all: try (apply elem_of_cons; by left).
    all: try (apply elem_of_cons; right; apply elem_of_cons; by left).
Qed.

(** X10. The reason and the location of a result are never the empty
    string: an empty one in the signature object becomes [null]. They are
    those of the signature object when the envelope decodes, holds no
    certificate and the extraction of the signing time does not raise. In
    every other case the result has neither, whatever the signature object
    holds: when the extraction raises, when the envelope holds a certificate
    (the result then has no signing time either), when it does not decode
    and when it is missing. *)
Theorem verification_reason_and_location
    forge engine (now : Z) (sigObj : Sig.Obj) (pdfBytes : list byte) :
  ∃ r, verifyPDFSignature forge engine now sigObj pdfBytes = returns r ∧
       reason r ≠ Some "" ∧ location r ≠ Some "" ∧
       (∀ contents p7 t,
          or_null (Sig.contents sigObj) = Some contents →
          parseCMSSignature forge contents = returns p7 →
          Pkcs7.certificates p7 ≫= head = None →
          signing_time forge engine (Pkcs7.signers p7 ≫= head) = returns t →
          reason r = or_null (Sig.reason sigObj) ∧
          location r = or_null (Sig.location sigObj) ∧
          signingTime r = t) ∧
       (∀ contents p7 e,
          or_null (Sig.contents sigObj) = Some contents →
          parseCMSSignature forge contents = returns p7 →
          Pkcs7.certificates p7 ≫= head = None →
          signing_time forge engine (Pkcs7.signers p7 ≫= head) = raise e →
          reason r = None ∧ location r = None ∧ signingTime r = None) ∧
       (∀ contents p7 cert,
          or_null (Sig.contents sigObj) = Some contents →
          parseCMSSignature forge contents = returns p7 →
          Pkcs7.certificates p7 ≫= head = Some cert →
          reason r = None ∧ location r = None ∧ signingTime r = None) ∧
       (or_null (Sig.contents sigObj) = None → reason r = None ∧ location r = None) ∧
       (∀ contents e,
          or_null (Sig.contents sigObj) = Some contents →
          parseCMSSignature forge contents = raise e →
          reason r = None ∧ location r = None).
Proof.
  assert (∀ v, or_null v ≠ Some "") as Hnonempty by (by intros [[]|]).
  eexists. split; [apply verifyPDFSignature_total|].
  destruct (result_object_cases forge engine now sigObj pdfBytes)
    as [[H1 ->]|[(c & e & H1 & H2 & ->)|[(c & p7 & H1 & H2 & H3 & ->)
        |(c & p7 & cert & H1 & H2 & H3 & ->)]]].
  - simpl. repeat split; try done; intros; congruence.
  - simpl. unfold raise, returns in *. repeat split; try done; intros; simplify_eq; congruence.
  - destruct (finish_display forge engine (Pkcs7.signers p7 ≫= head) sigObj
                (push_error "No certificates found in signature." initial_result))
      as (_ & _ & _ & -> & -> & ->).
    unfold raise, returns in *.
    repeat split; intros; simplify_eq;
      repeat match goal with
             | Ha : ?x = _, Hb : ?x = _ |- _ => rewrite Ha in Hb; simplify_eq
             end;
      repeat match goal with H : signing_time _ _ _ = _ |- _ => rewrite H end;
      try done; try (destruct (signing_time _ _ _) as [|[]]; simpl; done).
    all: by destruct t.
  - simpl. unfold raise, returns in *.
    repeat split; intros; simplify_eq;
      repeat match goal with
             | Ha : ?x = _, Hb : ?x = _ |- _ => rewrite Ha in Hb; simplify_eq
             end;
      done.
Qed.

(** X11. The signer shown for a signature is the common name of the subject
    of the first certificate of the envelope, or [Unknown] when the subject
    has none; the e-mail is that of the attribute [E], or else of the
    attribute [emailAddress]. The chain of the result, whose entries would
    list the attributes of a subject without common name, is empty. *)
Theorem verification_signer
    forge engine (now : Z) (sigObj : Sig.Obj) (pdfBytes : list byte)
    (contents : string) (p7 : Pkcs7.Message) (cert : X509.Certificate) :
  or_null (Sig.contents sigObj) = Some contents →
  parseCMSSignature forge contents = returns p7 →
  Pkcs7.certificates p7 ≫= head = Some cert →
  ∃ r, verifyPDFSignature forge engine now sigObj pdfBytes = returns r ∧
       signerName r =
         from_option X509.value "Unknown" (X509.getField (X509.subject cert) "CN") ∧
       signerEmail r =
         X509.value <$>
           match X509.getField (X509.subject cert) "E" with
           | Some e => Some e
           | None => X509.getField (X509.subject cert) "emailAddress"
           end ∧
       (X509.getField (X509.subject cert) "CN" = None → signerName r = "Unknown") ∧
       certificates r = [].
Proof.
  intros Hc Hp Hcert. eexists. split; [apply verifyPDFSignature_total|].
  erewrite result_object_certified by done. simpl.
  split; [done|]. split; [done|]. split; [by intros ->|done].
Qed.

Lemma verification_signer_witness :
  let sigObj := {| Sig.byteRange := Sig.range 0 40 600000 300000;
                   Sig.contents := Some "3082";
                   Sig.reason := None;
                   Sig.location := None |} in
  ∃ r, verifyPDFSignature Fixture.forge Fixture.engine 3000 sigObj Fixture.two_fields
       = returns r ∧
       signerName r = "Alice" ∧ signerEmail r = None ∧ certificates r = [].
Proof.
  intros sigObj.
  destruct (verification_signer Fixture.forge Fixture.engine 3000 sigObj
              Fixture.two_fields "3082" Fixture.envelope Fixture.leaf
              eq_refl eq_refl eq_refl) as (r & Hr & Hname & Hmail & _ & Hchain).
  exists r. split; [exact Hr|]. split; [exact Hname|]. split; [exact Hmail | exact Hchain].
Defined.

(** * Further properties of the locator *)

(** ** The matcher *)

Lemma try_down_Some {A} (f : nat → option A) (min k : nat) (r : A) :
  try_down f min k = Some r → ∃ j, min ≤ j ≤ k ∧ f j = Some r.
Proof.
  induction k as [|k IH]; simpl; case_bool_decide; try done.
  - destruct (f 0) eqn:E; [|done]. intros [= ->]. exists 0. split; [lia|done].
  - destruct (f (S k)) eqn:E.
    + intros [= ->]. exists (S k). split; [lia|done].
    + intros (j & Hj & Hf)%IH. exists j. split; [lia|done].
Qed.

Lemma try_down_first {A} (f : nat → option A) (min k : nat) (r : A) :
  min ≤ k → f k = Some r → try_down f min k = Some r.
Proof.
  intros Hk Hf. destruct k; simpl; rewrite bool_decide_eq_false_2 by lia; by rewrite Hf.
Qed.

Lemma run_length_le (cls : ascii → bool) (s : list ascii) : run_length cls s ≤ length s.
Proof. induction s as [|c s IH]; simpl; [lia|]. destruct (cls c); simpl; lia. Qed.

Lemma run_length_take (cls : ascii → bool) (s : list ascii) (j : nat) :
  j ≤ run_length cls s → Forall (λ c, cls c = true) (take j s) ∧ length (take j s) = j.
Proof.
  revert j. induction s as [|c s IH]; intros [|j] Hj; simpl in *; try (split; [done|done || lia]).
  destruct (cls c) eqn:E; [|lia].
  destruct (IH j) as [H1 H2]; [lia|]. split; [by constructor|by rewrite H2].
Qed.

Lemma run_length_app (cls : ascii → bool) (l rest : list ascii) :
  Forall (λ c, cls c = true) l → ends_run cls rest →
  run_length cls (l ++ rest) = length l.
Proof.
  intros Hl Hrest. induction Hl as [|c l Hc _ IH]; simpl.
  - destruct rest as [|c rest]; simpl in *; [done|by rewrite Hrest].
  - by rewrite Hc, IH.
Qed.

Lemma is_prefix_app (l rest : list ascii) : is_prefix l (l ++ rest) = true.
Proof. induction l as [|c l IH]; simpl; [done|]. by rewrite bool_decide_eq_true_2, IH. Qed.

Lemma is_prefix_take (l s : list ascii) : is_prefix l s = true → take (length l) s = l.
Proof.
  revert s. induction l as [|c l IH]; intros [|d s]; simpl; try done.
  intros [->%bool_decide_eq_true Hs]%andb_true_iff. by rewrite IH.
Qed.

(** A literal at the head of the text. *)
Lemma match_items_lit (l : string) its rest caps n :
  match_items its rest = Some (caps, n) →
  match_items (Lit l :: its) (list_ascii_of_string l ++ rest) =
    Some (caps, length (list_ascii_of_string l) + n).
Proof.
  intros H. simpl. by rewrite is_prefix_app, drop_app_length, H.
Qed.

(** A repetition that takes a whole run at the first try. *)
Lemma match_items_rep cls min capture its (l rest : list ascii) caps n :
  Forall (λ c, cls c = true) l → ends_run cls rest → min ≤ length l →
  match_items its rest = Some (caps, n) →
  match_items (Rep cls min capture :: its) (l ++ rest) =
    Some (if capture then string_of_list_ascii l :: caps else caps, length l + n).
Proof.
  intros Hl Hrest Hmin H. simpl. rewrite run_length_app by done.
  apply try_down_first; [done|]. by rewrite drop_app_length, H, take_app_length.
Qed.

(** ** The search loop *)

(** Every match lies at or after the point the search starts from, inside
    the text, and the pattern matches the text there. *)
Lemma exec_all_matches its skip pos (s : list ascii) m :
  m ∈ exec_all its skip pos s →
  pos + skip ≤ m.2 < pos + length s ∧
  ∃ len, match_items its (drop (m.2 - pos) s) = Some (m.1, len).
Proof.
  revert skip pos. induction s as [|c s IH]; intros skip pos; simpl.
  { by intros ?%elem_of_nil. }
  destruct skip as [|skip].
  - destruct (match_items its (c :: s)) as [[caps len]|] eqn:E.
    + intros [->|Hm]%elem_of_cons.
      * simpl. split; [lia|]. exists len. by rewrite Nat.sub_diag.
      * apply IH in Hm as [Hpos (len' & Hlen')]. split; [lia|]. exists len'.
        replace (m.2 - pos) with (S (m.2 - S pos)) by lia. done.
    + intros Hm. apply IH in Hm as [Hpos (len' & Hlen')]. split; [lia|]. exists len'.
      replace (m.2 - pos) with (S (m.2 - S pos)) by lia. done.
  - intros Hm. apply IH in Hm as [Hpos (len' & Hlen')]. split; [lia|]. exists len'.
    replace (m.2 - pos) with (S (m.2 - S pos)) by lia. done.
Qed.

(** The matches come in the order of the text. *)
Lemma exec_all_sorted its skip pos (s : list ascii) :
  StronglySorted (λ a b : list string * nat, a.2 < b.2) (exec_all its skip pos s).
Proof.
  revert skip pos. induction s as [|c s IH]; intros skip pos; simpl; [constructor|].
  destruct skip as [|skip]; [|apply IH].
  destruct (match_items its (c :: s)) as [[caps len]|]; [|apply IH].
  constructor; [apply IH|].
  apply Forall_forall. intros m Hm%exec_all_matches. simpl. lia.
Qed.

(** A search that starts inside a match that covers the rest of the text
    finds nothing. *)
Lemma exec_all_skip its skip pos (s : list ascii) :
  length s ≤ skip → exec_all its skip pos s = [].
Proof.
  revert skip pos. induction s as [|c s IH]; intros skip pos Hs; simpl; [done|].
  destruct skip; simpl in *; [lia|]. apply IH. lia.
Qed.

(** A match of a pattern that starts with a literal starts with it. *)
Lemma match_items_starts (l : string) its (s : list ascii) caps len :
  match_items (Lit l :: its) s = Some (caps, len) →
  take (length (list_ascii_of_string l)) s = list_ascii_of_string l.
Proof.
  simpl. destruct (is_prefix (list_ascii_of_string l) s) eqn:E; [|done].
  intros _. by apply is_prefix_take.
Qed.

(** X12. The locator lists the matches of each of its four patterns in the
    order of the document: the indices of the byte-range matches, of the
    contents matches, of the reason matches and of the location matches
    increase strictly. Each index lies inside the text, and the text at the
    index of a byte-range match starts with the name [/ByteRange], at that of
    a contents match with [/Contents]. *)
Theorem matches_in_document_order (pdfText : list ascii) :
  StronglySorted lt (Locator.brIndex <$> sigDataList pdfText) ∧
  StronglySorted lt (Locator.index <$> allContents pdfText) ∧
  StronglySorted lt (Locator.t_index <$> allReasons pdfText) ∧
  StronglySorted lt (Locator.t_index <$> allLocations pdfText) ∧
  (∀ sd, sd ∈ sigDataList pdfText →
     Locator.brIndex sd < length pdfText ∧
     take 10 (drop (Locator.brIndex sd) pdfText) = list_ascii_of_string "/ByteRange") ∧
  (∀ c, c ∈ allContents pdfText →
     Locator.index c < length pdfText ∧
     take 9 (drop (Locator.index c) pdfText) = list_ascii_of_string "/Contents").
Proof.
  unfold sigDataList, allContents, allReasons, allLocations.
  repeat split.
  1-4: rewrite <- list_fmap_compose;
       apply (StronglySorted_fmap _ (λ a b : list string * nat, a.2 < b.2));
       [done | apply exec_all_sorted].
  - apply list_elem_of_fmap in H as (m & -> & Hm).
    apply exec_all_matches in Hm as [Hpos _]. simpl. lia.
  - apply list_elem_of_fmap in H as (m & -> & Hm).
    apply exec_all_matches in Hm as [_ (len & Hlen)]. simpl.
    rewrite Nat.sub_0_r in Hlen. by apply match_items_starts in Hlen.
  - apply list_elem_of_fmap in H as (m & -> & Hm).
    apply exec_all_matches in Hm as [Hpos _]. simpl. lia.
  - apply list_elem_of_fmap in H as (m & -> & Hm).
    apply exec_all_matches in Hm as [_ (len & Hlen)]. simpl.
    rewrite Nat.sub_0_r in Hlen. by apply match_items_starts in Hlen.
Qed.

(** The equations of [match_items]. *)
Lemma match_items_Lit_eq (l : string) its (s : list ascii) :
  match_items (Lit l :: its) s =
    if is_prefix (list_ascii_of_string l) s
    then '(caps, n) ← match_items its (drop (length (list_ascii_of_string l)) s);
         Some (caps, length (list_ascii_of_string l) + n)
    else None.
Proof. reflexivity. Qed.

Lemma match_items_Rep_eq cls min capture its (s : list ascii) :
  match_items (Rep cls min capture :: its) s =
    try_down
      (λ k, '(caps, n) ← match_items its (drop k s);
            Some (if capture then string_of_list_ascii (take k s) :: caps else caps,
                  k + n))
      min (run_length cls s).
Proof. reflexivity. Qed.

Lemma match_items_nil_eq (s : list ascii) : match_items [] s = Some ([], 0).
Proof. reflexivity. Qed.

(** The group a contents match captures is a non-empty run of hexadecimal
    digits. *)
Lemma contents_capture (s : list ascii) caps len :
  match_items contentsRegex s = Some (caps, len) →
  ∃ h, caps = [string_of_list_ascii h] ∧ h ≠ [] ∧ Forall (λ c, hex c = true) h.
Proof.
  unfold contentsRegex. rewrite match_items_Lit_eq.
  destruct (is_prefix _ s); [|done].
  rewrite match_items_Rep_eq.
  destruct (try_down _ _ _) as [[caps1 n1]|] eqn:E1; [|done].
  intros [= <- <-].
  apply try_down_Some in E1 as (j1 & _ & E1).
  rewrite match_items_Lit_eq in E1.
  destruct (is_prefix _ _); [|done].
  rewrite match_items_Rep_eq in E1.
  destruct (try_down _ _ _) as [[caps2 n2]|] eqn:E2; [|done].
  injection E1 as <- <-.
  apply try_down_Some in E2 as (j2 & Hj2 & E2).
  rewrite match_items_Lit_eq in E2.
  destruct (is_prefix _ _); [|done].
  rewrite match_items_nil_eq in E2. injection E2 as <- <-.
  cbn [length list_ascii_of_string] in Hj2 |- *.
  match goal with |- context [take j2 ?t] =>
    destruct (run_length_take hex t j2) as [Hall Hlen]; [lia|];
    exists (take j2 t); split; [done|]; split; [|done];
    intros Hnil; rewrite Hnil in Hlen; simpl in Hlen; lia
  end.
Qed.

Lemma allContents_hex (pdfText : list ascii) (c : Locator.Contents) :
  c ∈ allContents pdfText →
  Locator.hex c ≠ "" ∧
  Forall (λ ch, hex ch = true) (list_ascii_of_string (Locator.hex c)).
Proof.
  unfold allContents. intros (m & -> & Hm)%list_elem_of_fmap.
  apply exec_all_matches in Hm as [_ (len & Hlen)].
  apply contents_capture in Hlen as (h & Hcaps & Hne & Hhex). simpl.
  rewrite Hcaps. unfold group. simpl.
  rewrite list_ascii_of_string_of_list_ascii. split; [|done].
  by destruct h.
Qed.

(** X13. The envelope the locator gives to a field is never the empty
    string: it is [null] when there are no more contents matches than the
    index of the field, and otherwise a non-empty run of hexadecimal digits.
    So the verification of a located field reports a missing envelope
    exactly when the document has too few contents matches. *)
Theorem located_contents (pdfText : list ascii) (i : nat) (sigObj : Sig.Obj) :
  sigObjects pdfText !! i = Some sigObj →
  (Sig.contents sigObj = None ↔ length (allContents pdfText) ≤ i) ∧
  (∀ h, Sig.contents sigObj = Some h →
        h ≠ "" ∧ Forall (λ ch, hex ch = true) (list_ascii_of_string h)) ∧
  or_null (Sig.contents sigObj) = Sig.contents sigObj ∧
  (∀ forge engine now pdfBytes,
     ∃ r, verifyPDFSignature forge engine now sigObj pdfBytes = returns r ∧
          ("Missing ByteRange or Contents in signature dictionary." ∈ errors r ↔
           length (allContents pdfText) ≤ i)).
Proof.
  intros Hobj. unfold sigObjects in Hobj. rewrite list_lookup_imap in Hobj.
  destruct (sigDataList pdfText !! i) as [sd|]; [|done]. injection Hobj as <-. simpl.
  assert (∀ h, Locator.hex <$> allContents pdfText !! i = Some h →
               h ≠ "" ∧ Forall (λ ch, hex ch = true) (list_ascii_of_string h)) as Hhex.
  { intros h Hh. destruct (allContents pdfText !! i) as [c|] eqn:E; [|done].
    injection Hh as <-. apply allContents_hex with pdfText.
    by eapply list_elem_of_lookup_2. }
  assert (Locator.hex <$> allContents pdfText !! i = None ↔ length (allContents pdfText) ≤ i)
    as Hnone by (rewrite fmap_None; apply lookup_ge_None).
  assert (or_null (Locator.hex <$> allContents pdfText !! i)
          = Locator.hex <$> allContents pdfText !! i) as Hor.
  { destruct (Locator.hex <$> allContents pdfText !! i) as [h|] eqn:E; [|done].
    destruct (Hhex h eq_refl) as [Hne _]. by destruct h. }
  split; [done|]. split; [done|]. split; [done|].
  intros forge engine now pdfBytes. eexists. split; [apply verifyPDFSignature_total|].
  rewrite <- Hnone.
  match goal with |- context [result_object _ _ _ ?o _] =>
    destruct (result_object_cases forge engine now o pdfBytes)
      as [[H1 ->]|[(c1 & e1 & H1 & P1 & ->)|[(c1 & p1 & H1 & P1 & C1 & ->)
          |(c1 & p1 & cert1 & H1 & P1 & C1 & ->)]]];
    simpl in H1; rewrite Hor in H1
  end.
  - simpl. split; [done|]. intros _. apply list_elem_of_singleton. done.
  - simpl. rewrite H1. split; [|done].
    intros [=]%list_elem_of_singleton.
  - match goal with |- context [errors (finish _ _ ?si ?o ?r0)] =>
      destruct (finish_flags forge engine si o r0) as (_ & _ & _ & _ & _ & _ & _ & _ & He)
    end.
    cbv zeta in He. rewrite He, H1. simpl. split; [|done].
    destruct (signing_time _ _ _);
      intros Hin; repeat (apply elem_of_cons in Hin as [[=]|Hin]);
      by apply elem_of_nil in Hin.
  - simpl. rewrite H1. split; [|done].
    intros [=]%list_elem_of_singleton.
Qed.

Lemma located_contents_witness :
  ∃ sigObj,
    sigObjects (decode_latin1 Fixture.two_fields) !! 0 = Some sigObj ∧
    Sig.contents sigObj = Some "3082" ∧
    or_null (Sig.contents sigObj) = Sig.contents sigObj.
Proof.
  eexists. split; [vm_compute; reflexivity|]. split; [reflexivity|].
  match goal with |- or_null (Sig.contents ?o) = _ =>
    destruct (located_contents (decode_latin1 Fixture.two_fields) 0 o) as (_ & _ & H & _)
  end.
  - vm_compute. reflexivity.
  - exact H.
Defined.

(** ** Decimal numbers *)

Lemma list_ascii_of_string_app (s1 s2 : string) :
  list_ascii_of_string (s1 +:+ s2) = list_ascii_of_string s1 ++ list_ascii_of_string s2.
Proof. induction s1 as [|c s1 IH]; simpl; [done|]. by rewrite IH. Qed.

Lemma pretty_N_char_digit (x : N) :
  (x < 10)%N → digit (pretty_N_char x) = true ∧ (code (pretty_N_char x) - 48 = x)%N.
Proof.
  intros Hx.
  assert (x = 0 ∨ x = 1 ∨ x = 2 ∨ x = 3 ∨ x = 4 ∨ x = 5 ∨ x = 6 ∨ x = 7 ∨ x = 8 ∨ x = 9)%N
    as H by lia.
  repeat (destruct H as [->|H]; [by vm_compute|]). subst. by vm_compute.
Qed.

(** The digits [pretty_N_go] writes before [s] are decimal digits, and
    reading them back in base ten gives the number. *)
Lemma pretty_N_go_digits (x : N) (s : string) :
  ∃ ds,
    list_ascii_of_string (pretty_N_go x s) = ds ++ list_ascii_of_string s ∧
    Forall (λ c, digit c = true) ds ∧
    ((0 < x)%N → ds ≠ []) ∧
    ∀ acc, foldl (λ acc c, 10 * acc + (code c - 48))%N acc ds =
           (acc * 10 ^ N.of_nat (length ds) + x)%N.
Proof.
  revert s. induction (N.lt_wf_0 x) as [x _ IH]. intros s.
  destruct (decide (x = 0)%N) as [->|Hx].
  { exists []. rewrite pretty_N_go_0. repeat split; [done|lia|]. intros acc. simpl. lia. }
  rewrite pretty_N_go_step by lia.
  destruct (IH (x `div` 10)%N) with (s := String (pretty_N_char (x `mod` 10)) s)
    as (ds & Heq & Hds & _ & Hval).
  { apply N.div_lt; lia. }
  destruct (pretty_N_char_digit (x `mod` 10)) as [Hdig Hcode].
  { apply N.mod_lt. lia. }
  exists (ds ++ [pretty_N_char (x `mod` 10)]). repeat split.
  - rewrite Heq. simpl. by rewrite <- app_assoc.
  - apply Forall_app. split; [done|]. by constructor.
  - intros _. by destruct ds.
  - intros acc. rewrite foldl_app. simpl. rewrite Hval, Hcode, length_app. simpl.
    replace (N.of_nat (length ds + 1)) with (N.succ (N.of_nat (length ds))) by lia.
    rewrite N.pow_succ_r'.
    pose proof (N.div_mod' x 10). lia.
Qed.

(** The decimal text of a number is a non-empty run of digits that
    writes the number. *)
Lemma pretty_N_decimal (n : N) :
  list_ascii_of_string (pretty n) ≠ [] ∧
  Forall (λ c, digit c = true) (list_ascii_of_string (pretty n)) ∧
  decimal (pretty n) = n.
Proof.
  unfold pretty, pretty_N. destruct (decide (n = 0)%N) as [->|Hn].
  { split; [done|]. split; [|reflexivity]. repeat constructor. }
  destruct (pretty_N_go_digits n "") as (ds & Heq & Hds & Hne & Hval).
  simpl in Heq. rewrite app_nil_r in Heq. unfold decimal. rewrite Heq.
  split; [apply Hne; lia|]. split; [done|]. rewrite Hval. lia.
Qed.

(** Up to [2^53] an integer is the double that [parseInt] returns for it. *)
Lemma to_double_exact (n : N) : (n ≤ 2 ^ 53)%N → Js.to_double n = Js.Finite n.
Proof.
  intros Hn. unfold Js.to_double.
  destruct (N.ltb_spec n (2 ^ 53)) as [_|Hge]; [done|].
  assert (n = 2 ^ 53)%N as -> by lia. vm_compute. reflexivity.
Qed.

(** ** A marker, written and read back *)

Lemma digit_not_space (c : ascii) : digit c = true → space c = false.
Proof.
  unfold digit, space. intros H%bool_decide_eq_true. apply bool_decide_eq_false.
  rewrite !elem_of_cons, elem_of_nil. lia.
Qed.

Lemma ends_run_digits (l rest : list ascii) :
  l ≠ [] → Forall (λ c, digit c = true) l → ends_run space (l ++ rest).
Proof.
  intros Hne Hl. destruct Hl as [|c l Hc _]; [done|]. simpl. by apply digit_not_space.
Qed.

(** A match that covers the whole text is the only one. *)
Lemma exec_all_whole its (s : list ascii) caps :
  s ≠ [] → match_items its s = Some (caps, length s) →
  exec_all its 0 0 s = [(caps, 0)].
Proof.
  intros Hs Hm. destruct s as [|c s]; [done|].
  cbn [exec_all]. rewrite Hm. f_equal. apply exec_all_skip. simpl. lia.
Qed.

(** The byte-range pattern on a marker written with one space before the
    bracket and one between the numbers. *)
Lemma byteRange_marker (a b c d : list ascii) :
  a ≠ [] → b ≠ [] → c ≠ [] → d ≠ [] →
  Forall (λ ch, digit ch = true) a → Forall (λ ch, digit ch = true) b →
  Forall (λ ch, digit ch = true) c → Forall (λ ch, digit ch = true) d →
  let text :=
    list_ascii_of_string "/ByteRange [" ++ a ++ list_ascii_of_string " " ++ b ++
    list_ascii_of_string " " ++ c ++ list_ascii_of_string " " ++ d ++
    list_ascii_of_string "]" in
  match_items byteRangeRegex text =
    Some ([string_of_list_ascii a; string_of_list_ascii b;
           string_of_list_ascii c; string_of_list_ascii d], length text).
Proof.
  intros Ha Hb Hc Hd Da Db Dc Dd text.
  assert (1 ≤ length a ∧ 1 ≤ length b ∧ 1 ≤ length c ∧ 1 ≤ length d) as (La & Lb & Lc & Ld).
  { destruct a, b, c, d; simpl; try done. lia. }
  pose (sp := list_ascii_of_string " ").
  assert (Forall (λ ch, space ch = true) sp) as Hsp by (by repeat constructor).
  assert (match_items byteRangeRegex
            (list_ascii_of_string "/ByteRange" ++ sp ++ list_ascii_of_string "[" ++
             [] ++ a ++ sp ++ b ++ sp ++ c ++ sp ++ d ++ [] ++
             list_ascii_of_string "]" ++ []) =
          Some ([string_of_list_ascii a; string_of_list_ascii b;
                 string_of_list_ascii c; string_of_list_ascii d],
                10 + (1 + (1 + (0 + (length a + (1 + (length b + (1 + (length c +
                  (1 + (length d + (0 + (1 + 0)))))))))))))) as Hm.
  { unfold byteRangeRegex.
    apply (match_items_lit "/ByteRange").
    apply (match_items_rep space 0 false _ sp); [done|done|simpl; lia|].
    apply (match_items_lit "[").
    apply (match_items_rep space 0 false _ []);
      [constructor|by apply ends_run_digits|simpl; lia|].
    apply (match_items_rep digit 1 true _ a); [done|done|done|].
    apply (match_items_rep space 1 false _ sp);
      [done|by apply ends_run_digits|simpl; lia|].
    apply (match_items_rep digit 1 true _ b); [done|done|done|].
    apply (match_items_rep space 1 false _ sp);
      [done|by apply ends_run_digits|simpl; lia|].
    apply (match_items_rep digit 1 true _ c); [done|done|done|].
    apply (match_items_rep space 1 false _ sp);
      [done|by apply ends_run_digits|simpl; lia|].
    apply (match_items_rep digit 1 true _ d); [done|done|done|].
    apply (match_items_rep space 0 false _ []); [constructor|done|simpl; lia|].
    apply (match_items_lit "]"). reflexivity. }
  etrans; [exact Hm|]. do 2 f_equal. subst text sp. rewrite !length_app. simpl. lia.
Qed.

(** X14. A byte-range marker written in decimal is read back as doubles:
    on the text [/ByteRange [a b c d]] the locator finds one match, at index
    0, whose byte range is made of the doubles nearest to the four numbers.
    Up to [2^53] these are the numbers themselves; beyond, a number may be
    read as another ([2^53 + 1] as [2^53], [2^53 + 3] as [2^53 + 4]), and
    from [2^1024] on as [Infinity]. *)
Theorem byteRange_marker_round_trip (a b c d : N) :
  sigDataList
    (list_ascii_of_string
       ("/ByteRange [" +:+ pretty a +:+ " " +:+ pretty b +:+ " " +:+ pretty c +:+ " "
        +:+ pretty d +:+ "]")) =
    [ {| Locator.byteRange :=
           ((Js.to_double a, Js.to_double b), (Js.to_double c, Js.to_double d));
         Locator.brIndex := 0 |} ] ∧
  (∀ n, (n ≤ 2 ^ 53)%N → Js.to_double n = Js.Finite n) ∧
  Js.to_double (2 ^ 53 + 1) = Js.Finite (2 ^ 53) ∧
  Js.to_double (2 ^ 53 + 3) = Js.Finite (2 ^ 53 + 4) ∧
  Js.to_double (2 ^ 1024) = Js.Infinity.
Proof.
  split; [|split; [exact to_double_exact|repeat split; vm_compute; reflexivity]].
  destruct (pretty_N_decimal a) as (Ha & Da & Pa), (pretty_N_decimal b) as (Hb & Db & Pb),
    (pretty_N_decimal c) as (Hc & Dc & Pc), (pretty_N_decimal d) as (Hd & Dd & Pd).
  pose proof (byteRange_marker _ _ _ _ Ha Hb Hc Hd Da Db Dc Dd) as Hm. cbv zeta in Hm.
  unfold sigDataList. rewrite !list_ascii_of_string_app.
  match type of Hm with match_items _ ?t = _ =>
    assert (t ≠ []) as Hne by done; rewrite (exec_all_whole _ t _ Hne Hm)
  end.
  cbn [fmap list_fmap fst snd]. unfold group. cbn [lookup list_lookup Nat.sub default fst].
  rewrite !string_of_list_ascii_of_string.
  unfold id, parseInt. by rewrite Pa, Pb, Pc, Pd.
Qed.

(** * Further properties of the verification of a document *)

(** X15. The promise of [verifyPDFSignatures] is rejected in three cases
    and no other: with the event of the reader when the file cannot be read;
    with the error of pdf.js when it fails to load the document; and with the
    error of pdf.js when it fails to list the fields of the form. A failure
    inside the verification of a field never rejects it. *)
Theorem verifyPDFSignatures_rejected_iff
    forge engine getDocument clock (file : File.t) (err : Rejection.t) :
  verifyPDFSignatures forge engine getDocument clock file = reject err ↔
  (File.readable file = false ∧ err = Rejection.Event) ∨
  (File.readable file = true ∧
   ∃ msg, err = Rejection.Error msg ∧
          (getDocument (File.bytes file) = raise msg ∨
           ∃ pdfDoc, getDocument (File.bytes file) = returns pdfDoc ∧
                     PdfJs.getFieldObjects pdfDoc = raise msg)).
Proof.
  unfold verifyPDFSignatures, onload, reject, resolve, raise, returns.
  destruct (File.readable file).
  2: { split; [intros [= <-]; by left|]. by intros [[_ ->]|[[=] _]]. }
  destruct (getDocument (File.bytes file)) as [e|pdfDoc] eqn:Hdoc.
  { split.
    - intros [= <-]. right. split; [done|]. exists e. split; [done|]. by left.
    - intros [[[=] _]|[_ (msg & -> & [[= ->]|(? & [=] & _)])]]. done. }
  destruct (PdfJs.getFieldObjects pdfDoc) as [e|acroForm] eqn:Hform.
  { split.
    - intros [= <-]. right. split; [done|]. exists e. split; [done|]. right. by exists pdfDoc.
    - intros [[[=] _]|[_ (msg & -> & [[=]|(pdfDoc' & [= <-] & Hform')])]].
      rewrite Hform in Hform'. by injection Hform' as ->. }
  split.
  - case_bool_decide; [done|]. rewrite verify_each_spec. done.
  - intros [[[=] _]|[_ (msg & -> & [[=]|(pdfDoc' & [= <-] & Hform')])]].
    rewrite Hform in Hform'. done.
Qed.

(** X16. No marker of a file reaches the output. When the form has no
    field of type signature, or when there is no form, the output has no
    signature and carries the message that none was found. When it has one,
    the output has no signature either, and no message: the text searched is
    that of an array without element, whatever markers the file holds. *)
Theorem markers_never_found
    forge engine getDocument clock (file : File.t) (d : DocumentResult)
    (pdfDoc : PdfJs.Document) (acroForm : option PdfJs.FieldObjects) :
  getDocument (File.bytes file) = returns pdfDoc →
  PdfJs.getFieldObjects pdfDoc = returns acroForm →
  verifyPDFSignatures forge engine getDocument clock file = resolve d →
  numPages d = PdfJs.numPages pdfDoc ∧
  signatures d = [] ∧ hasSignatures d = false ∧
  (sigFields acroForm = [] →
   message d = Some "No digital signatures found in this document.") ∧
  (sigFields acroForm ≠ [] → message d = None).
Proof.
  intros Hdoc Hform Hd.
  destruct (verifyPDFSignatures_no_signature _ _ _ _ _ _ Hd) as [Hnil Hhas].
  destruct (verifyPDFSignatures_resolved _ _ _ _ _ _ Hd) as [_ Hload].
  destruct (onload_resolved _ _ _ _ _ _ Hload)
    as (pdfDoc' & acroForm' & Hdoc' & Hform' & Hpages & _ & _ & Hmsg).
  rewrite Hdoc in Hdoc'. injection Hdoc' as <-.
  rewrite Hform in Hform'. injection Hform' as <-.
  split; [done|]. split; [done|]. split; [done|]. rewrite Hmsg. split.
  - intros ->. reflexivity.
  - intros Hne. rewrite bool_decide_eq_false_2; [done|]. by destruct (sigFields acroForm).
Qed.

Lemma markers_never_found_witness :
  ∃ d,
    verifyPDFSignatures Fixture.forge Fixture.engine Fixture.getDocument (λ _, 3000%Z)
      (Fixture.file "two.pdf" Fixture.two_fields) = resolve d ∧
    length (sigDataList (decode_latin1 Fixture.two_fields)) = 2 ∧
    signatures d = [] ∧ hasSignatures d = false ∧ message d = None.
Proof.
  eexists. split; [vm_compute; reflexivity|]. split; [vm_compute; reflexivity|].
  match goal with |- signatures ?d = _ ∧ _ =>
    edestruct (markers_never_found Fixture.forge Fixture.engine
                 Fixture.getDocument (λ _, 3000%Z)
                 (Fixture.file "two.pdf" Fixture.two_fields) d)
      as (_ & Hnil & Hhas & _ & Hmsg); [reflexivity | reflexivity | vm_compute; reflexivity |]
  end.
  split; [exact Hnil|]. split; [exact Hhas|]. by apply Hmsg.
Defined.

(** * Further properties of the certificate inspector *)

Lemma extractDN_snoc (attrs : list X509.Attribute) (a : X509.Attribute) (h h' : string) :
  extractDN {| X509.attributes := attrs ++ [a]; X509.hash := h |} =
    <[X509.shortName a := X509.value a]>
      (extractDN {| X509.attributes := attrs; X509.hash := h' |}).
Proof. unfold extractDN. simpl. by rewrite foldl_app. Qed.

(** X17. The inspector and the verifier read a name differently when a
    short name occurs twice in it: the object [extractDN] builds maps a
    short name to the value of the last attribute that has it, while
    [getField] returns the first one; a short name the name does not have
    is absent from the object. *)
Theorem extractDN_last_wins (entity : X509.Name) (sn : string) :
  extractDN entity !! sn =
    X509.value <$> last (filter (λ a, X509.shortName a = sn) (X509.attributes entity)) ∧
  X509.getField entity sn =
    head (filter (λ a, X509.shortName a = sn) (X509.attributes entity)) ∧
  (extractDN entity !! sn = None ↔
   ∀ a, a ∈ X509.attributes entity → X509.shortName a ≠ sn).
Proof.
  destruct entity as [attrs h]. simpl.
  assert (extractDN {| X509.attributes := attrs; X509.hash := h |} !! sn =
          X509.value <$> last (filter (λ a, X509.shortName a = sn) attrs)) as Hlast.
  { induction attrs as [|a attrs IH] using rev_ind; [done|].
    rewrite (extractDN_snoc attrs a h h), filter_app, filter_cons, filter_nil.
    destruct (decide (X509.shortName a = sn)) as [<-|Hne].
    - by rewrite lookup_insert_eq, last_snoc.
    - by rewrite lookup_insert_ne, app_nil_r. }
  split; [exact Hlast|]. split.
  - clear Hlast. unfold X509.getField. simpl.
    induction attrs as [|a attrs IH]; simpl; [done|].
    rewrite filter_cons. case_bool_decide; case_decide; done.
  - rewrite Hlast, fmap_None, last_None.
    split.
    + intros Hnil a Ha Hsn.
      assert (a ∈ filter (λ a, X509.shortName a = sn) attrs) as Hin
        by (by apply list_elem_of_filter).
      rewrite Hnil in Hin. by apply elem_of_nil in Hin.
    + intros Hall. destruct (filter _ attrs) as [|a l] eqn:E; [done|].
      assert (a ∈ filter (λ a, X509.shortName a = sn) attrs) as Hin
        by (rewrite E; by left).
      apply list_elem_of_filter in Hin as [Hsn Hin]. by destruct (Hall a Hin).
Qed.


(** * Further properties of the statuses of a document *)



(** A signature counts as bad when its status is [invalid] or [tampered]. *)
Lemma reduce_invalid_iff (sigs : list Signature) :
  foldl reduce_step valid sigs = invalid ↔
  ∃ sig, sig ∈ sigs ∧ getOverallStatus (verResult sig) ∈ [invalid; tampered].
Proof.
  split.
  - intros Hfold.
    destruct (decide (Exists (λ sig, getOverallStatus (verResult sig) ∈ [invalid; tampered])
                             sigs)) as [Hex|Hno].
    { apply Exists_exists in Hex as (sig & Hin & Hbad). eauto. }
    apply not_Exists_Forall in Hno; [|solve_decision].
    rewrite Forall_forall in Hno.
    rewrite foldl_reduce_step_first in Hfold.
    + simpl in Hfold.
      destruct (filter _ _) as [|s l] eqn:E; [done|]. simpl in Hfold. subst s.
      assert (invalid ∈ filter (λ s, s ≠ valid)
                ((λ sig, getOverallStatus (verResult sig)) <$> sigs)) as Hin
        by (rewrite E; by left).
      apply list_elem_of_filter in Hin as [_ (sig & Hs & Hin)%list_elem_of_fmap].
      destruct (Hno sig Hin). simpl. rewrite <- Hs. by left.
    + intros sig Hin. specialize (Hno sig Hin). simpl in Hno.
      pose proof (getOverallStatus_not_none (verResult sig)).
      destruct (getOverallStatus (verResult sig)); simpl; try lia; try done;
        destruct Hno; set_solver.
  - intros (sig & Hin & Hbad). apply foldl_reduce_step_invalid. right.
    exists sig. split; [done|].
    apply elem_of_cons in Hbad as [?|Hbad]; [by left|].
    apply list_elem_of_singleton in Hbad. by right.
Qed.

Lemma reduce_without_bad (sigs : list Signature) :
  (∀ sig, sig ∈ sigs → getOverallStatus (verResult sig) ∉ [invalid; tampered]) →
  foldl reduce_step valid sigs =
    default valid (head (filter (λ s, s ≠ valid)
                                ((λ sig, getOverallStatus (verResult sig)) <$> sigs))).
Proof.
  intros Hno. rewrite foldl_reduce_step_first; [done|].
  intros sig Hin. specialize (Hno sig Hin).
  pose proof (getOverallStatus_not_none (verResult sig)).
  destruct (getOverallStatus (verResult sig)); simpl; try lia; try done;
    destruct Hno; set_solver.
Qed.



(** * The counters of the verifier tab *)

Ltac status_contradiction :=
  exfalso;
  repeat match goal with
  | H : _ ∈ _ :: _ |- _ => apply elem_of_cons in H as [H|H]; [discriminate H|]
  | H : _ ∈ [] |- _ => by apply elem_of_nil in H
  end;
  match goal with
  | H : ¬ _ |- _ => apply H; first [reflexivity | by repeat constructor]
  end.

Lemma counters_partition (sigs : list Signature) :
  length (filter (λ s, getOverallStatus (verResult s) = valid) sigs) +
  length (filter (λ s, getOverallStatus (verResult s) ∈ [expired; self_signed; untrusted]) sigs) +
  length (filter (λ s, getOverallStatus (verResult s) ∈ [invalid; tampered]) sigs) =
  length sigs.
Proof.
  induction sigs as [|sig sigs IH]; [done|].
  rewrite !filter_cons.
  pose proof (getOverallStatus_not_none (verResult sig)).
  destruct (getOverallStatus (verResult sig)) eqn:E;
    repeat (match goal with |- context [decide ?P] => destruct (decide P) end);
    simpl; first [lia | status_contradiction].
Qed.

Lemma filter_length_pos {A} (P : A → Prop) `{!∀ x, Decision (P x)} (l : list A) :
  0 < length (filter P l) ↔ ∃ x, x ∈ l ∧ P x.
Proof.
  split.
  - destruct (filter P l) as [|x l'] eqn:E; [simpl; lia|]. intros _.
    assert (x ∈ filter P l) as Hf by (rewrite E; by left).
    apply list_elem_of_filter in Hf as [? ?]. eauto.
  - intros (x & Hin & HP).
    assert (x ∈ filter P l) as Hf by (by apply list_elem_of_filter).
    destruct (filter P l); [by apply elem_of_nil in Hf|simpl; lia].
Qed.

Lemma filter_length_all {A} (P : A → Prop) `{!∀ x, Decision (P x)} (l : list A) :
  length (filter P l) = length l ↔ Forall P l.
Proof.
  induction l as [|x l IH]; [by split|].
  rewrite filter_cons, Forall_cons.
  pose proof (length_filter P l).
  destruct (decide (P x)); simpl.
  - rewrite <- IH. split; [intros; split; [done|lia]|intros [_ ->]; done].
  - split; [lia|by intros [? _]].
Qed.

(** Without a bad signature the reduction gives [valid] when every signature
    is valid, and otherwise the status of a signature, which is one of the
    warnings. *)
Lemma reduce_without_bad_cases (sigs : list Signature) :
  (∀ sig, sig ∈ sigs → getOverallStatus (verResult sig) ∉ [invalid; tampered]) →
  (foldl reduce_step valid sigs = valid ∧
   Forall (λ sig, getOverallStatus (verResult sig) = valid) sigs) ∨
  (foldl reduce_step valid sigs ∈ [expired; self_signed; untrusted] ∧
   ∃ sig, sig ∈ sigs ∧ getOverallStatus (verResult sig) = foldl reduce_step valid sigs).
Proof.
  intros Hno. rewrite reduce_without_bad by done.
  induction sigs as [|sig sigs IH]; [left; by split|].
  rewrite fmap_cons, filter_cons.
  pose proof (Hno sig ltac:(by left)) as Hsig.
  pose proof (getOverallStatus_not_none (verResult sig)) as Hnn.
  destruct (decide (getOverallStatus (verResult sig) ≠ valid)) as [Hv|Hv].
  - right. cbn [head default]. split; [|exists sig; split; [by left|done]].
    destruct (getOverallStatus (verResult sig)); try done;
      first [by repeat constructor | destruct Hsig; by repeat constructor].
  - apply dec_stable in Hv.
    destruct IH as [[IH1 IH2]|[IH1 (sig' & Hin & IH2)]].
    + intros ? ?. apply Hno. by right.
    + left. split; [done|]. by constructor.
    + right. split; [done|]. exists sig'. split; [by right|done].
Qed.

(** X19. The three counters of the verifier tab split the signatures of a
    result: every signature is counted once.  With signatures present, the
    status of the document is [invalid] exactly when a signature is counted as
    bad, [valid] exactly when all are counted as valid, and a warning exactly
    when none is counted as bad and one as a warning. *)
Theorem counters_and_document_status (r : DocumentResult) :
  validCount (Some r) + warnCount (Some r) + badCount (Some r) = length (signatures r) ∧
  (hasSignatures r = true →
     (overallStatus r = invalid ↔ 0 < badCount (Some r)) ∧
     (overallStatus r = valid ↔ validCount (Some r) = length (signatures r)) ∧
     (overallStatus r ∈ [expired; self_signed; untrusted] ↔
        badCount (Some r) = 0 ∧ 0 < warnCount (Some r))).
Proof.
  pose proof (counters_partition (signatures r)) as Hsum.
  split; [exact Hsum|]. intros Hhas.
  unfold overallStatus. rewrite Hhas.
  unfold validCount, warnCount, badCount in *. cbn [from_option] in *.
  set (sigs := signatures r) in *. clearbody sigs.
  assert (foldl reduce_step valid sigs = invalid ↔
          0 < length (filter (λ s, getOverallStatus (verResult s) ∈ [invalid; tampered]) sigs))
    as Hbad.
  { by rewrite reduce_invalid_iff, filter_length_pos. }
  split; [done|].
  destruct (decide (0 < length (filter (λ s, getOverallStatus (verResult s)
                                              ∈ [invalid; tampered]) sigs))) as [Hpos|Hzero].
  { pose proof (proj2 Hbad Hpos) as ->. split.
    - split; [done|]. intros Hall. lia.
    - split; [intros Hin; status_contradiction|lia]. }
  assert (∀ sig, sig ∈ sigs → getOverallStatus (verResult sig) ∉ [invalid; tampered]) as Hno.
  { intros sig Hin Hs. apply Hzero, filter_length_pos. eauto. }
  destruct (reduce_without_bad_cases sigs Hno) as [[-> Hall]|[Hw (sig & Hin & Hs)]].
  - pose proof (proj2 (filter_length_all _ sigs) Hall) as Hlen. split; [done|].
    split; [intros Hin; status_contradiction|lia].
  - split.
    + split.
      * intros Hv. rewrite Hv in Hw. status_contradiction.
      * intros Hall%filter_length_all. rewrite Forall_forall in Hall. rewrite <- Hs. by apply Hall.
    + split; [|done]. intros _. split; [lia|].
      apply filter_length_pos. exists sig. by rewrite Hs.
Qed.

(** * The report *)



(** * The history and the batch *)

Lemma take_app_take {A} (n : nat) (l m : list A) :
  take n (l ++ take n m) = take n (l ++ m).
Proof.
  rewrite !take_app, take_take. do 2 f_equal. lia.
Qed.

Lemma addToHistory_fold (entries history : list History.Entry) :
  take 50 (foldl (λ h e, addToHistory e h) history entries) =
  take 50 (reverse entries ++ history).
Proof.
  revert history. induction entries as [|e entries IH]; intros history; [done|].
  cbn [foldl]. rewrite IH. unfold addToHistory.
  rewrite take_app_take, reverse_cons, <- app_assoc. done.
Qed.

Lemma history_length_bound (entries history : list History.Entry) :
  length history ≤ 50 →
  length (foldl (λ h e, addToHistory e h) history entries) ≤ 50.
Proof.
  revert history. induction entries as [|e entries IH]; intros history Hlen; [done|].
  cbn [foldl]. apply IH. unfold addToHistory. rewrite length_take. lia.
Qed.

(** X21. The history keeps the fifty most recent entries, the newest
    first: after any number of additions to a history of at most fifty
    entries, it is the first fifty of the added entries in reverse order
    followed by the earlier history. *)
Theorem history_keeps_latest_fifty (entries history : list History.Entry) :
  length history ≤ 50 →
  foldl (λ h e, addToHistory e h) history entries = take 50 (reverse entries ++ history) ∧
  length (foldl (λ h e, addToHistory e h) history entries) =
    Nat.min 50 (length entries + length history).
Proof.
  intros Hlen.
  assert (foldl (λ h e, addToHistory e h) history entries
          = take 50 (reverse entries ++ history)) as ->.
  { rewrite <- addToHistory_fold. symmetry. apply take_ge.
    by apply history_length_bound. }
  split; [done|]. rewrite length_take, length_app, length_reverse. done.
Qed.

Lemma history_keeps_latest_fifty_witness :
  let e (n : Z) := {| History.fileName := "a.pdf"; History.fileSize := 30;
                      History.result := None; History.error := None;
                      History.time := n |} in
  foldl (λ h e, addToHistory e h) [e 1%Z] [e 2%Z; e 3%Z] = [e 3%Z; e 2%Z; e 1%Z].
Proof.
  intros e.
  destruct (history_keeps_latest_fifty [e 2%Z; e 3%Z] [e 1%Z]) as [-> _];
    [simpl; lia|reflexivity].
Defined.

Section BatchFacts.

Context (forge : Forge) (engine : Engine).
Context (getDocument : list byte → Exc PdfJs.Document).
Context (clock : nat → nat → Z) (dateNow : nat → Z).

Lemma processBatch_loop_spec (files : list File.t) (k : nat)
    (st : list History.Entry * list History.Entry) :
  ∃ entries,
    processBatch_loop forge engine getDocument clock dateNow k files st =
      (st.1 ++ entries,
       foldl (λ h e, addToHistory e h) st.2
             (filter (λ e, is_Some (History.result e)) entries)) ∧
    length entries = length files ∧
    ∀ i file, files !! i = Some file →
      ∃ entry, entries !! i = Some entry ∧
        entry_of_file forge engine getDocument clock dateNow (k + i) file entry.
Proof.
  revert k st. induction files as [|file files IH]; intros k st.
  { exists []. simpl. rewrite app_nil_r. by destruct st. }
  cbn [processBatch_loop].
  destruct (verifyPDFSignatures forge engine getDocument (clock k) file)
    as [err|res] eqn:Hv.
  - match goal with
    | |- context [processBatch_loop _ _ _ _ _ _ _ (_ ++ [?e], _)] => set (entry := e)
    end.
    destruct (IH (S k) (st.1 ++ [entry], st.2)) as (entries & -> & Hlen & Hent).
    exists (entry :: entries). cbn [fst snd]. split; [|split].
    + rewrite <- app_assoc. cbn [app]. rewrite filter_cons.
      destruct (decide (is_Some (History.result entry))) as [[? Hs]|_]; [done|done].
    + simpl. by rewrite Hlen.
    + intros [|i] f Hf.
      * injection Hf as <-. exists entry. split; [done|].
        rewrite Nat.add_0_r. unfold entry_of_file. rewrite Hv. done.
      * destruct (Hent i f Hf) as (e & He & Hspec). exists e. split; [done|].
        by replace (k + S i) with (S k + i) by lia.
  - match goal with
    | |- context [processBatch_loop _ _ _ _ _ _ _ (_ ++ [?e], _)] => set (entry := e)
    end.
    destruct (IH (S k) (st.1 ++ [entry], addToHistory entry st.2))
      as (entries & -> & Hlen & Hent).
    exists (entry :: entries). cbn [fst snd]. split; [|split].
    + rewrite <- app_assoc. cbn [app]. rewrite filter_cons.
      destruct (decide (is_Some (History.result entry))) as [_|Hn]; [done|].
      destruct Hn. by eexists.
    + simpl. by rewrite Hlen.
    + intros [|i] f Hf.
      * injection Hf as <-. exists entry. split; [done|].
        rewrite Nat.add_0_r. unfold entry_of_file. rewrite Hv. done.
      * destruct (Hent i f Hf) as (e & He & Hspec). exists e. split; [done|].
        by replace (k + S i) with (S k + i) by lia.
Qed.

(** X22. A batch shows one entry per file, in the order of the files, each
    with the name and the size of its file.  The entry of a file whose
    verification resolves holds the result and is shown with the status of
    that document; the entry of a file whose verification is rejected holds
    the message of the error and is shown as [invalid], or as [none] when the
    message is empty or when the rejection is the event of the reader, which
    has no message.  Only the entries of the first kind are added to the
    history, in the order of the files. *)
Theorem processBatch_entries (files : list File.t) (history : list History.Entry) :
  let out := processBatch forge engine getDocument clock dateNow files history in
  length out.1 = length files ∧
  (∀ i file, files !! i = Some file →
     ∃ entry, out.1 !! i = Some entry ∧
       entry_of_file forge engine getDocument clock dateNow i file entry ∧
       batchStatus entry =
         match verifyPDFSignatures forge engine getDocument (clock i) file with
         | inr res => overallStatus res
         | inl (Rejection.Error msg) => if decide (msg = EmptyString) then none else invalid
         | inl Rejection.Event => none
         end) ∧
  out.2 = foldl (λ h e, addToHistory e h) history
                (filter (λ e, is_Some (History.result e)) out.1).
Proof.
  intros out. subst out. unfold processBatch.
  destruct (processBatch_loop_spec files 0 ([], history)) as (entries & -> & Hlen & Hent).
  cbn [fst snd app]. split; [done|]. split; [|done].
  intros i file Hfile. destruct (Hent i file Hfile) as (entry & Hentry & Hspec).
  exists entry. split; [done|]. split; [done|].
  destruct Hspec as (_ & _ & _ & Hspec). cbn [Nat.add] in Hspec.
  unfold batchStatus, overallStatus.
  destruct (verifyPDFSignatures forge engine getDocument (clock i) file)
    as [err|res]; destruct Hspec as [-> ->]; [|done].
  by destruct err as [[|? ?]|].
Qed.

End BatchFacts.

(** * Toasts *)

Lemma toast_ids_snoc (l : list nat) (n : nat) :
  StronglySorted lt l → Forall (λ i, i < n) l → StronglySorted lt (l ++ [n]).
Proof.
  induction 1 as [|x l Hl IH Hx]; intros Hn; [repeat constructor|].
  apply Forall_cons in Hn as [Hxn Hn]. cbn [app]. constructor; [by apply IH|].
  apply Forall_app. split; [done|]. by repeat constructor.
Qed.

Lemma toast_ids_filter (P : Toast.Item → Prop) `{!∀ t, Decision (P t)}
    (l : list Toast.Item) :
  StronglySorted lt (Toast.id <$> l) → StronglySorted lt (Toast.id <$> filter P l).
Proof.
  induction l as [|t l IH]; [done|]. rewrite fmap_cons. intros Hs.
  apply StronglySorted_inv in Hs as [Hs Ht]. rewrite filter_cons.
  destruct (decide (P t)); [|by apply IH].
  rewrite fmap_cons. constructor; [by apply IH|].
  rewrite Forall_fmap in Ht |- *. rewrite Forall_forall in Ht |- *.
  intros x [_ Hx]%list_elem_of_filter. by apply Ht.
Qed.

(** X23. Whatever toasts are added, dismissed or expire, the toasts shown
    carry different identifiers, in increasing order and between 1 and the
    counter, which counts the toasts added; dismissing a toast removes every
    toast with its identifier and no other. *)
Theorem toast_ids_distinct (events : list Toast.event) :
  let st := foldl Toast.step Toast.initial events in
  StronglySorted lt (Toast.id <$> Toast.toasts st) ∧
  NoDup (Toast.id <$> Toast.toasts st) ∧
  Forall (λ t, 1 ≤ Toast.id t ≤ Toast.toastId st) (Toast.toasts st) ∧
  Toast.toastId st =
    sum_list_with (λ ev, match ev with Toast.Add _ _ => 1 | _ => 0 end) events ∧
  ∀ i t, t ∈ Toast.toasts (Toast.dismiss i st) ↔ t ∈ Toast.toasts st ∧ Toast.id t ≠ i.
Proof.
  intros st.
  assert (StronglySorted lt (Toast.id <$> Toast.toasts st) ∧
          Forall (λ t, 1 ≤ Toast.id t ≤ Toast.toastId st) (Toast.toasts st) ∧
          Toast.toastId st =
            sum_list_with (λ ev, match ev with Toast.Add _ _ => 1 | _ => 0 end) events)
    as (Hsorted & Hrange & Hcount).
  { subst st. induction events as [|ev events IH] using rev_ind.
    { simpl. split; [constructor|]. split; [constructor|done]. }
    rewrite foldl_app, sum_list_with_app. cbn [foldl sum_list_with].
    destruct IH as (IH1 & IH2 & IH3).
    set (st := foldl Toast.step Toast.initial events) in *. clearbody st.
    assert (∀ i, StronglySorted lt (Toast.id <$> Toast.toasts (Toast.dismiss i st)) ∧
                 Forall (λ t, 1 ≤ Toast.id t ≤ Toast.toastId (Toast.dismiss i st))
                        (Toast.toasts (Toast.dismiss i st))) as Hdismiss.
    { intros i. unfold Toast.dismiss. cbn [Toast.toasts Toast.toastId].
      split; [by apply toast_ids_filter|].
      rewrite Forall_forall in IH2 |- *.
      intros x [_ Hx]%list_elem_of_filter. by apply IH2. }
    destruct ev as [message type|i|i]; cbn [Toast.step].
    - unfold Toast.addToast. cbn [Toast.toasts Toast.toastId].
      rewrite fmap_app. cbn [fmap list_fmap]. split; [|split].
      + apply toast_ids_snoc; [done|].
        rewrite Forall_fmap. eapply Forall_impl; [exact IH2|].
        intros t Ht. simpl in *. lia.
      + apply Forall_app. split.
        * eapply Forall_impl; [exact IH2|]. intros t Ht. simpl in *. lia.
        * constructor; [simpl; lia|constructor].
      + rewrite IH3. lia.
    - destruct (Hdismiss i) as [H1 H2]. split; [done|]. split; [done|].
      cbn [Toast.dismiss Toast.toastId]. rewrite IH3. lia.
    - destruct (Hdismiss i) as [H1 H2]. split; [done|]. split; [done|].
      cbn [Toast.dismiss Toast.toastId]. rewrite IH3. lia. }
  split; [done|]. split; [|split; [done|split; [done|]]].
  - clear -Hsorted. induction Hsorted as [|x l Hl IH Hx]; constructor; [|done].
    intros Hin. rewrite Forall_forall in Hx. specialize (Hx x Hin). lia.
  - intros i t. unfold Toast.dismiss. cbn [Toast.toasts].
    rewrite list_elem_of_filter. tauto.
Qed.

(** * The entries of the history *)

Lemma addToHistory_fold_Forall (P : History.Entry → Prop)
    (entries history : list History.Entry) :
  Forall P history → Forall P entries →
  Forall P (foldl (λ h e, addToHistory e h) history entries).
Proof.
  revert history. induction entries as [|e entries IH]; intros history Hh He; [done|].
  apply Forall_cons in He as [He Hes]. cbn [foldl]. apply IH; [|done].
  unfold addToHistory. apply Forall_take. by constructor.
Qed.

(** X24. A batch leaves in the history only entries that hold a result:
    the sidebar, which reads [entry.result.hasSignatures] of every entry of
    the history, never meets the entry of a rejected file.  The history also
    stays within fifty entries. *)
Theorem history_entries_hold_results
    forge engine getDocument clock dateNow
    (files : list File.t) (history : list History.Entry) :
  Forall (λ e, is_Some (History.result e)) history →
  length history ≤ 50 →
  let history' := (processBatch forge engine getDocument clock dateNow files history).2 in
  Forall (λ e, is_Some (History.result e) ∧ History.error e = None ∨ e ∈ history) history' ∧
  Forall (λ e, is_Some (History.result e)) history' ∧
  length history' ≤ 50.
Proof.
  intros Hres Hlen history'. subst history'. unfold processBatch.
  destruct (processBatch_loop_spec forge engine getDocument clock dateNow files 0
              ([], history)) as (entries & -> & Hlength & Hent).
  cbn [fst snd app].
  assert (Forall (λ e, is_Some (History.result e) ∧ History.error e = None)
            (filter (λ e, is_Some (History.result e)) entries)) as Hnew.
  { apply Forall_forall. intros e [He (i & Hi)%list_elem_of_lookup_1]%list_elem_of_filter.
    split; [done|].
    destruct (lookup_lt_is_Some_2 files i) as [file Hfile].
    { rewrite <- Hlength. by eapply lookup_lt_Some. }
    destruct (Hent i file Hfile) as (e' & He' & _ & _ & _ & Hspec).
    rewrite Hi in He'. injection He' as <-.
    destruct (verifyPDFSignatures _ _ _ _ _) as [err|res]; destruct Hspec as [Hr Herr];
      [|done].
    rewrite Hr in He. by destruct He. }
  split; [|split].
  - apply addToHistory_fold_Forall.
    + apply Forall_forall. intros e He. by right.
    + eapply Forall_impl; [exact Hnew|]. intros e He. by left.
  - apply addToHistory_fold_Forall; [done|].
    eapply Forall_impl; [exact Hnew|]. by intros e [He _].
  - by apply history_length_bound.
Qed.

Lemma history_entries_hold_results_witness :
  let file := Fixture.file "two.pdf" Fixture.two_fields in
  Forall (λ e, is_Some (History.result e))
    (processBatch Fixture.forge Fixture.engine Fixture.getDocument
       (λ _ _, 7000%Z) (λ _, 7001%Z) [file] []).2.
Proof.
  intros file.
  destruct (history_entries_hold_results Fixture.forge Fixture.engine Fixture.getDocument
              (λ _ _, 7000%Z) (λ _, 7001%Z) [file] []) as (_ & Hres & _).
  - constructor.
  - simpl. lia.
  - exact Hres.
Defined.
